(** * CMYK converter: the conversion endpoint and the upload page

    A shallow embedding of the two TypeScript sources of the repository:

    - [src/app/api/convert/route.ts]: the [POST] handler of [/api/convert];
    - the page component [Home] with its handlers [onDrop], [convertImage],
      [convertAllImages] and [clearImages].

    The image toolkit ([sharp]), the browser's [fetch] and React's state
    hooks are outside the repository.  The toolkit is an interface the
    handler is parameterised by; [fetch] is an effect whose outcome the
    environment chooses; the two [useState] cells are the fields of a
    record that the effects [setImages] and [setIsProcessing] update. *)

From Stdlib Require Import List String Ascii Strings.Byte Bool Arith NArith Lia.
From Stdlib Require Import DecimalString.
From Stdlib Require Import ZArith.
Import ListNotations.

Set Implicit Arguments.
Set Warnings "-register-all".
Local Open Scope string_scope.
Local Open Scope list_scope.

(** ** Values shared by both sides *)

(** A value that a JavaScript [throw] (or a rejected promise) carries:
    either an [Error] object with its [message], or any other value. *)
Inductive Thrown : Type :=
| ErrorObj (message : string)
| NonError (shown : string).

(** The outcome of an operation that may throw. *)
Definition Result (A : Type) : Type := (Thrown + A)%type.

(** JSON values, as [NextResponse.json] writes them and [response.json()]
    reads them. *)
Inductive Json : Type :=
| JNull
| JBool (b : bool)
| JNum (n : N)
| JStr (s : string)
| JArr (items : list Json)
| JObj (fields : list (string * Json)).

(** Property read [o.k] on a parsed object: the first field named [k]. *)
Fixpoint assoc (k : string) (fields : list (string * Json)) : option Json :=
  match fields with
  | [] => None
  | (k', v) :: rest => if String.eqb k k' then Some v else assoc k rest
  end.

Definition field (k : string) (j : Json) : option Json :=
  match j with
  | JObj fields => assoc k fields
  | _ => None
  end.

Definition Buffer : Type := list byte.

(** A [File]: its name, its declared content type and its bytes. *)
Record File : Type := mkFile {
  name : string;
  type : string;
  arrayBuffer : Buffer
}.

(** The value of a form field: the text of a field sent without a file
    name, or a file. *)
Inductive FormDataEntryValue : Type :=
| EntryText (value : string)
| EntryFile (file : File).

(** A multipart form: named entries.  [formData.get(k)] is the first
    entry named [k], and [null] when there is none; the cast [as File] of
    the handler is erased at run time. *)
Definition FormData : Type := list (string * FormDataEntryValue).

Fixpoint FormData_get (k : string) (fd : FormData)
  : option FormDataEntryValue :=
  match fd with
  | [] => None
  | (k', v) :: rest => if String.eqb k k' then Some v else FormData_get k rest
  end.

(** [!v] is false for an entry: it is there and is not the empty text. *)
Definition entry_truthy (v : option FormDataEntryValue) : bool :=
  match v with
  | None | Some (EntryText EmptyString) => false
  | Some _ => true
  end.

(** [v?.name] and [v.type]: a text has neither property. *)
Definition entry_name (v : option FormDataEntryValue) : option string :=
  match v with
  | Some (EntryFile f) => Some (name f)
  | _ => None
  end.

Definition entry_type (v : option FormDataEntryValue) : option string :=
  match v with
  | Some (EntryFile f) => Some (type f)
  | _ => None
  end.

(** ** Strings *)

(** [s.split(sep)] for a one-character separator. *)
Fixpoint split (sep : ascii) (s : string) : list string :=
  match s with
  | EmptyString => [EmptyString]
  | String c rest =>
      if Ascii.eqb c sep then EmptyString :: split sep rest
      else match split sep rest with
           | [] => [String c EmptyString]
           | piece :: pieces => String c piece :: pieces
           end
  end.

(** A value interpolated in a template literal; [undefined] prints as
    such. *)
Definition interpolate (v : option string) : string :=
  match v with
  | Some s => s
  | None => "undefined"
  end.

(** [xs.includes(x)] on an array of strings. *)
Definition includes (xs : list string) (x : string) : bool :=
  existsb (String.eqb x) xs.

(** [xs.includes(v)] for a value that may be [undefined], which no
    string equals. *)
Definition includes_value (xs : list string) (v : option string) : bool :=
  match v with
  | Some x => includes xs x
  | None => false
  end.

(** The decimal text of a number in a template literal. *)
Definition decimal (n : nat) : string :=
  NilZero.string_of_uint (Nat.to_uint n).

(** [buf.toString('base64')]: RFC 4648 with padding. *)
Definition base64_alphabet : list ascii :=
  list_ascii_of_string
    "ABCDEFGHIJKLMNOPQRSTUVWXYZabcdefghijklmnopqrstuvwxyz0123456789+/".

Definition base64_digit (n : N) : ascii :=
  nth (N.to_nat n) base64_alphabet "="%char.

Definition sextet (k : N) (word : N) : ascii :=
  base64_digit (N.land (N.shiftr word (6 * k)) 63).

Definition word24 (a b c : byte) : N :=
  (Byte.to_N a * 65536 + Byte.to_N b * 256 + Byte.to_N c)%N.

Fixpoint base64 (bs : Buffer) : string :=
  match bs with
  | [] => ""
  | [a] =>
      let w := word24 a x00 x00 in
      String (sextet 3 w) (String (sextet 2 w) "==")
  | [a; b] =>
      let w := word24 a b x00 in
      String (sextet 3 w) (String (sextet 2 w) (String (sextet 1 w) "="))
  | a :: b :: c :: rest =>
      let w := word24 a b c in
      String (sextet 3 w) (String (sextet 2 w)
        (String (sextet 1 w) (String (sextet 0 w) (base64 rest))))
  end.

(** ** The conversion endpoint *)

Module Server.

(** What [sharp(buffer).metadata()] reports; a dimension the decoder did
    not find is [undefined]. *)
Record Metadata : Type := mkMetadata {
  width : option N;
  height : option N
}.

(** The three toolkit pipelines the handler runs on the uploaded bytes. *)
Class Sharp : Type := {
  (** [sharp(buffer).metadata()] *)
  metadata : Buffer -> Result Metadata;
  (** [sharp(buffer).jpeg({ quality: 90 }).toBuffer()] *)
  jpeg_toBuffer : Buffer -> Result Buffer;
  (** [sharp(buffer).tiff({ compression: 'lzw', quality: 100,
      predictor: 'horizontal' }).toColorspace('cmyk').toBuffer()] *)
  tiff_cmyk_toBuffer : Buffer -> Result Buffer
}.

(** What the handler does to the outside, in order. *)
Inductive Effect : Type :=
| ConsoleLog (args : list string)
| ConsoleError (label : string) (thrown : Thrown)
| SharpMetadata (input : Buffer)
| SharpJpeg (input : Buffer)
| SharpTiffCmyk (input : Buffer).

Definition is_sharp_call (e : Effect) : bool :=
  match e with
  | SharpMetadata _ | SharpJpeg _ | SharpTiffCmyk _ => true
  | _ => false
  end.

(** The handler's computations: they append to the trace of effects and
    return a value or throw. *)
Definition M (A : Type) : Type := list Effect -> Result A * list Effect.

Definition ret {A} (a : A) : M A := fun tr => (inr a, tr).

Definition throw {A} (e : Thrown) : M A := fun tr => (inl e, tr).

Definition bind {A B} (m : M A) (k : A -> M B) : M B :=
  fun tr =>
    match m tr with
    | (inl e, tr') => (inl e, tr')
    | (inr a, tr') => k a tr'
    end.

Definition emit (e : Effect) : M unit := fun tr => (inr tt, tr ++ [e]).

(** [await p] for a promise that settles with [r]. *)
Definition await {A} (r : Result A) : M A := fun tr => (r, tr).

(** [try { body } catch (error) { handler }] around a body that returns. *)
Definition try_catch {A} (body : M A) (handler : Thrown -> M A) : M A :=
  fun tr =>
    match body tr with
    | (inl e, tr') => handler e tr'
    | (inr a, tr') => (inr a, tr')
    end.

Notation "x <- m ;; k" := (bind m (fun x => k))
  (at level 61, m at next level, right associativity).
Notation "m ;; k" := (bind m (fun _ => k))
  (at level 61, right associativity).

Record NextRequest : Type := mkRequest {
  (** [await request.formData()] *)
  formData : Result FormData
}.

Record NextResponse : Type := mkResponse {
  status : nat;
  body : Json
}.

(** [NextResponse.json(body, { status })]; the status defaults to 200. *)
Definition json (body : Json) (status : option nat) : NextResponse :=
  mkResponse (match status with Some s => s | None => 200 end) body.

(** A property whose value may be [undefined] is left out of the JSON
    text. *)
Definition optional_number (k : string) (v : option N)
  : list (string * Json) :=
  match v with
  | Some n => [(k, JNum n)]
  | None => []
  end.

Definition allowedTypes : list string :=
  ["image/jpeg"; "image/jpg"; "image/png"].

(** [`${file.name.split('.')[0]}_cmyk.tiff`] *)
Definition outputFilename (fileName : string) : string :=
  (interpolate (nth_error (split "." fileName) 0) ++ "_cmyk.tiff")%string.

Section Handler.

Context {sharp : Sharp}.

Definition POST_body (request : NextRequest) : M NextResponse :=
  emit (ConsoleLog ["API route called - POST method"]) ;;
  formData <- await (formData request) ;;
  let file := FormData_get "image" formData in
  emit (ConsoleLog ["File received:";
                    interpolate (entry_name file);
                    interpolate (entry_type file)]) ;;
  if negb (entry_truthy file) then
    emit (ConsoleLog ["No file provided"]) ;;
    ret (json (JObj [("error", JStr "No file provided")]) (Some 400))
  else if negb (includes_value allowedTypes (entry_type file)) then
    emit (ConsoleLog ["Invalid file type:"; interpolate (entry_type file)]) ;;
    ret (json
           (JObj [("error",
                   JStr "Invalid file type. Only JPG, JPEG, and PNG are supported.")])
           (Some 400))
  else
    match file with
    | Some (EntryFile file) =>
        let buffer := arrayBuffer file in
        emit (ConsoleLog ["Processing image with Sharp..."]) ;;
        emit (SharpMetadata buffer) ;;
        metadata <- await (metadata buffer) ;;
        emit (SharpJpeg buffer) ;;
        previewBuffer <- await (jpeg_toBuffer buffer) ;;
        emit (SharpTiffCmyk buffer) ;;
        convertedBuffer <- await (tiff_cmyk_toBuffer buffer) ;;
        emit (ConsoleLog ["Conversion successful"]) ;;
        let previewBase64 :=
          ("data:image/jpeg;base64," ++ base64 previewBuffer)%string in
        let convertedBase64 :=
          ("data:image/tiff;base64," ++ base64 convertedBuffer)%string in
        ret (json
               (JObj [("success", JBool true);
                      ("previewUrl", JStr previewBase64);
                      ("downloadData", JStr convertedBase64);
                      ("filename", JStr (outputFilename (name file)));
                      ("metadata",
                       JObj (optional_number "width" (width metadata)
                             ++ optional_number "height" (height metadata)
                             ++ [("format", JStr "TIFF (CMYK)");
                                 ("size", JNum (N.of_nat (List.length convertedBuffer)))]))])
               None)
    | _ =>
        (* a value with no [arrayBuffer] method *)
        throw (ErrorObj "file.arrayBuffer is not a function")
    end.

Definition POST_traced (request : NextRequest) : M NextResponse :=
  try_catch (POST_body request)
    (fun error =>
       emit (ConsoleError "Conversion error:" error) ;;
       ret (json
              (JObj [("error", JStr "Failed to convert image. Please try again.")])
              (Some 500))).

(** The response of one call, and the effects of that call.  The outer
    [try]/[catch] returns on both paths, so the handler always answers;
    the fallback is the runtime's answer to a handler that throws. *)
Definition POST (request : NextRequest) : NextResponse :=
  match fst (POST_traced request []) with
  | inr response => response
  | inl _ => mkResponse 500 JNull
  end.

Definition POST_effects (request : NextRequest) : list Effect :=
  snd (POST_traced request []).

Definition sharp_calls (request : NextRequest) : list Effect :=
  filter is_sharp_call (POST_effects request).

End Handler.

End Server.

(** ** The upload page *)

Module Client.

Module Response.
(** What the page reads of a [fetch] response: [ok], [status], and what
    [await response.text()] and [await response.json()] settle with.  The
    parsed body is any JSON value. *)
Record t : Type := mk {
  ok : bool;
  status : nat;
  text : Result string;
  json : Result Json
}.
End Response.

(** What [await fetch(...)] settles with. *)
Definition Outcome : Type := Result Response.t.

Inductive Status : Type := Pending | Processing | Completed | Error.

Definition Status_eqb (a b : Status) : bool :=
  match a, b with
  | Pending, Pending | Processing, Processing
  | Completed, Completed | Error, Error => true
  | _, _ => false
  end.

Record ImageFile : Type := mkImageFile {
  id : string;
  file : File;
  preview : string;
  status : Status;
  previewUrl : option Json;
  downloadData : option Json;
  filename : option Json;
  metadata : option Json;
  error : option string
}.

(** What [setImages] is given: a function of the list before.  React
    runs it when it renders, after the handler that queued it has gone
    on; it may throw. *)
Definition Updater : Type := list ImageFile -> Result (list ImageFile).

(** [prev.map(g)] for a [g] that may throw: the first throw ends it. *)
Fixpoint map_items (g : ImageFile -> Result ImageFile)
  (prev : list ImageFile) : Result (list ImageFile) :=
  match prev with
  | [] => inr []
  | img :: rest =>
      match g img with
      | inl e => inl e
      | inr img' =>
          match map_items g rest with
          | inl e => inl e
          | inr rest' => inr (img' :: rest')
          end
      end
  end.

(** The effects of the page's handlers.  An [async] handler is a tree:
    it runs to its next [await fetch], and goes on with the outcome.  The
    outcome carries what reading the body settles with: a handler does
    nothing between the [await] of the response and the [await] of its
    body, so the two are one suspension here. *)
Inductive Async (A : Type) : Type :=
| Return (a : A)
| Throw (e : Thrown)
| SetImages (update : Updater) (k : Async A)
| SetIsProcessing (b : bool) (k : Async A)
| RevokeObjectURL (url : string) (k : Async A)
| ConsoleError (label : string) (e : Thrown) (k : Async A)
| Fetch (url method : string) (body : FormData) (k : Outcome -> Async A).

Arguments Return {A} a.
Arguments Throw {A} e.
Arguments SetImages {A} update k.
Arguments SetIsProcessing {A} b k.
Arguments RevokeObjectURL {A} url k.
Arguments ConsoleError {A} label e k.
Arguments Fetch {A} url method body k.

Fixpoint bind {A B} (t : Async A) (k : A -> Async B) : Async B :=
  match t with
  | Return a => k a
  | Throw e => Throw e
  | SetImages f t' => SetImages f (bind t' k)
  | SetIsProcessing b t' => SetIsProcessing b (bind t' k)
  | RevokeObjectURL u t' => RevokeObjectURL u (bind t' k)
  | ConsoleError l e t' => ConsoleError l e (bind t' k)
  | Fetch u m b t' => Fetch u m b (fun o => bind (t' o) k)
  end.

(** [try { body } catch (error) { handler }] *)
Fixpoint try_catch {A} (body : Async A) (handler : Thrown -> Async A)
  : Async A :=
  match body with
  | Return a => Return a
  | Throw e => handler e
  | SetImages f t' => SetImages f (try_catch t' handler)
  | SetIsProcessing b t' => SetIsProcessing b (try_catch t' handler)
  | RevokeObjectURL u t' => RevokeObjectURL u (try_catch t' handler)
  | ConsoleError l e t' => ConsoleError l e (try_catch t' handler)
  | Fetch u m b t' => Fetch u m b (fun o => try_catch (t' o) handler)
  end.

Notation "x <- m ;; k" := (bind m (fun x => k))
  (at level 61, m at next level, right associativity).
Notation "m ;; k" := (bind m (fun _ => k))
  (at level 61, right associativity).

Definition setImages (update : Updater) : Async unit :=
  SetImages update (Return tt).

Definition setIsProcessing (b : bool) : Async unit :=
  SetIsProcessing b (Return tt).

Definition revokeObjectURL (url : string) : Async unit :=
  RevokeObjectURL url (Return tt).

Definition consoleError (label : string) (e : Thrown) : Async unit :=
  ConsoleError label e (Return tt).

(** [await fetch(url, { method, body })]: a rejected promise throws at
    the [await]. *)
Definition fetch (url method : string) (body : FormData)
  : Async Response.t :=
  Fetch url method body
    (fun o => match o with inl e => Throw e | inr r => Return r end).

(** [await p] for the body of a response already received. *)
Definition await {A} (r : Result A) : Async A :=
  match r with
  | inl e => Throw e
  | inr a => Return a
  end.

(** [for (const x of xs) { await body(x) }], and [xs.forEach(body)]. *)
Fixpoint for_each {X} (xs : list X) (body : X -> Async unit)
  : Async unit :=
  match xs with
  | [] => Return tt
  | x :: rest => body x ;; for_each rest body
  end.

(** The object spreads of [convertImage].  The one for a completed item
    reads four properties of [result]: reading a property of [null]
    throws a [TypeError]; any other value that is not an object has none
    of the four. *)
Definition processing_of (img : ImageFile) : Result ImageFile :=
  inr (mkImageFile (id img) (file img) (preview img) Processing
         (previewUrl img) (downloadData img) (filename img) (metadata img)
         (error img)).

Definition completed_of (result : Json) (img : ImageFile)
  : Result ImageFile :=
  match result with
  | JNull =>
      inl (ErrorObj "Cannot read properties of null (reading 'previewUrl')")
  | _ =>
      inr (mkImageFile (id img) (file img) (preview img) Completed
             (field "previewUrl" result) (field "downloadData" result)
             (field "filename" result) (field "metadata" result)
             (error img))
  end.

(** [error instanceof Error ? error.message : '...'] *)
Definition message_of (e : Thrown) : string :=
  match e with
  | ErrorObj message => message
  | NonError _ => "Failed to convert image. Please try again."
  end.

Definition error_of (e : Thrown) (img : ImageFile) : Result ImageFile :=
  inr (mkImageFile (id img) (file img) (preview img) Error
         (previewUrl img) (downloadData img) (filename img) (metadata img)
         (Some (message_of e))).

(** [prev.map((img) => img.id === imageFile.id ? change(img) : img)] *)
Definition update_matching (imageFile : ImageFile)
  (change : ImageFile -> Result ImageFile) : Updater :=
  map_items (fun img => if String.eqb (id img) (id imageFile) then change img
                        else inr img).

Definition convertImage (imageFile : ImageFile) : Async unit :=
  setImages (update_matching imageFile processing_of) ;;
  try_catch
    (let formData := [("image", EntryFile (file imageFile))] in
     response <- fetch "/api/convert" "POST" formData ;;
     (if negb (Response.ok response) then
        errorText <- await (Response.text response) ;;
        Throw (ErrorObj ("Conversion failed: "
                         ++ decimal (Response.status response)
                         ++ " " ++ errorText)%string)
      else Return tt) ;;
     result <- await (Response.json response) ;;
     setImages (update_matching imageFile (completed_of result)))
    (fun error =>
       consoleError "Conversion error:" error ;;
       setImages (update_matching imageFile (error_of error))).

(** What [convertImage] is, once its [try] and [catch] are resolved for
    each outcome of the request. *)
Definition settled (imageFile : ImageFile) (o : Outcome) : Async unit :=
  match o with
  | inl e =>
      ConsoleError "Conversion error:" e
        (setImages (update_matching imageFile (error_of e)))
  | inr response =>
      if Response.ok response then
        match Response.json response with
        | inr result => setImages (update_matching imageFile (completed_of result))
        | inl e =>
            ConsoleError "Conversion error:" e
              (setImages (update_matching imageFile (error_of e)))
        end
      else
        let e := match Response.text response with
                 | inl e => e
                 | inr errorText =>
                     ErrorObj ("Conversion failed: "
                               ++ decimal (Response.status response)
                               ++ " " ++ errorText)%string
                 end in
        ConsoleError "Conversion error:" e
          (setImages (update_matching imageFile (error_of e)))
  end.

Definition is_pending (img : ImageFile) : bool :=
  Status_eqb (status img) Pending.

(** [images] is the list the handler closed over: the state as of the
    render that installed the handler. *)
Definition convertAllImages (images : list ImageFile) : Async unit :=
  setIsProcessing true ;;
  let pendingImages := filter is_pending images in
  for_each pendingImages convertImage ;;
  setIsProcessing false.

Definition clearImages (images : list ImageFile) : Async unit :=
  for_each images (fun img => revokeObjectURL (preview img)) ;;
  setImages (fun _ => inr []).

(** A file the drop zone accepted, with the identifier that
    [Math.random().toString(36).substr(2, 9)] and the object URL that
    [URL.createObjectURL(file)] gave for it. *)
Record Accepted : Type := mkAccepted {
  accepted_file : File;
  random_id : string;
  object_url : string
}.

Definition onDrop (acceptedFiles : list Accepted) : Async unit :=
  let newImages :=
    map (fun a => mkImageFile (random_id a) (accepted_file a) (object_url a)
                    Pending None None None None None) acceptedFiles in
  setImages (fun prev => inr (prev ++ newImages)).

(** *** The page as a transition system *)

(** Which handler sent a request: the loop of [convertAllImages], or a
    [convertImage] started from an item's own button. *)
Inductive Origin : Type := Batch | Single.

Definition Origin_eqb (a b : Origin) : bool :=
  match a, b with
  | Batch, Batch | Single, Single => true
  | _, _ => false
  end.

(** A handler suspended at [await fetch]. *)
Record InFlight : Type := mkInFlight {
  origin : Origin;
  sent : FormData;
  resume : Outcome -> Async unit
}.

Inductive Event : Type :=
| Requested (who : Origin) (body : FormData)
| Settled (who : Origin) (body : FormData)
| Revoked (url : string)
| Unhandled (e : Thrown)
| RenderFailed (e : Thrown).

(** The two state cells of [Home], the requests that are out, what the
    page has done so far, and whether a render has thrown.  The page has
    no error boundary: when a render throws, React unmounts it.  From
    then on nothing is listed and there is nothing to click or to drop
    on, while the handlers that are suspended still go on when their
    requests settle: [isProcessing] and [inflight] keep recording what
    they set and send. *)
Record World : Type := mkWorld {
  images : list ImageFile;
  isProcessing : bool;
  inflight : list InFlight;
  log : list Event;
  crashed : bool
}.

Definition initial : World := mkWorld [] false [] [] false.

(** Run a handler until it returns or suspends.  React applies the queued
    updater functions in order, each to the result of the one before; an
    updater that throws makes the render throw. *)
Fixpoint exec (who : Origin) (t : Async unit) (w : World) : World :=
  match t with
  | Return _ => w
  | Throw e =>
      mkWorld (images w) (isProcessing w) (inflight w)
        (log w ++ [Unhandled e]) (crashed w)
  | SetImages f k =>
      match f (images w) with
      | inr next =>
          exec who k
            (mkWorld next (isProcessing w) (inflight w) (log w) (crashed w))
      | inl e =>
          exec who k
            (mkWorld [] (isProcessing w) (inflight w)
               (log w ++ [RenderFailed e]) true)
      end
  | SetIsProcessing b k =>
      exec who k (mkWorld (images w) b (inflight w) (log w) (crashed w))
  | RevokeObjectURL u k =>
      exec who k
        (mkWorld (images w) (isProcessing w) (inflight w)
           (log w ++ [Revoked u]) (crashed w))
  | ConsoleError _ _ k => exec who k w
  | Fetch _ _ body k =>
      mkWorld (images w) (isProcessing w)
        (inflight w ++ [mkInFlight who body k])
        (log w ++ [Requested who body]) (crashed w)
  end.

(** [disabled] of the three buttons, and the guard of the card that
    holds the first two. *)
Definition actions_shown (w : World) : bool :=
  negb (Nat.eqb (List.length (images w)) 0).

Definition convertAll_disabled (w : World) : bool :=
  isProcessing w
  || forallb (fun img => negb (Status_eqb (status img) Pending)) (images w).

Definition clear_disabled (w : World) : bool := isProcessing w.

Definition convert_disabled (imageFile : ImageFile) : bool :=
  negb (Status_eqb (status imageFile) Pending)
  && negb (Status_eqb (status imageFile) Error).

Definition remove_nth {X} (i : nat) (xs : list X) : list X :=
  firstn i xs ++ skipn (S i) xs.

(** What can happen to the page: the user drops files or clicks a
    button, or the [i]-th request that is out settles. *)
Inductive Action : Type :=
| DropFiles (acceptedFiles : list Accepted)
| ClickConvertAll
| ClickClearAll
| ClickConvert (i : nat)
| Settle (i : nat) (o : Outcome).

(** A click on a control that is disabled or not shown does nothing,
    and a page that is gone takes neither clicks nor drops. *)
Definition step (w : World) (a : Action) : World :=
  match a with
  | DropFiles acceptedFiles =>
      if crashed w then w else exec Single (onDrop acceptedFiles) w
  | ClickConvertAll =>
      if negb (crashed w) && actions_shown w && negb (convertAll_disabled w)
      then exec Batch (convertAllImages (images w)) w
      else w
  | ClickClearAll =>
      if negb (crashed w) && actions_shown w && negb (clear_disabled w)
      then exec Single (clearImages (images w)) w
      else w
  | ClickConvert i =>
      if crashed w then w
      else
        match nth_error (images w) i with
        | Some imageFile =>
            if convert_disabled imageFile then w
            else exec Single (convertImage imageFile) w
        | None => w
        end
  | Settle i o =>
      match nth_error (inflight w) i with
      | Some r =>
          exec (origin r) (resume r o)
            (mkWorld (images w) (isProcessing w) (remove_nth i (inflight w))
               (log w ++ [Settled (origin r) (sent r)]) (crashed w))
      | None => w
      end
  end.

Definition run_from (w : World) (actions : list Action) : World :=
  fold_left step actions w.

Definition run (actions : list Action) : World := run_from initial actions.

Definition batch_requests (w : World) : list InFlight :=
  filter (fun r => Origin_eqb (origin r) Batch) (inflight w).

(** *** One handler on its own *)

(** What a handler does when nothing else runs and its [n]-th request
    settles with [reply n]. *)
Inductive Ev : Type :=
| Request (n : nat) (body : FormData)
| Reply (n : nat) (o : Outcome)
| Flag (b : bool)
| Revoke (url : string)
| Rejected (e : Thrown).

Fixpoint trace (t : Async unit) (reply : nat -> Outcome) (n : nat)
  : list Ev :=
  match t with
  | Return _ => []
  | Throw e => [Rejected e]
  | SetImages _ k => trace k reply n
  | SetIsProcessing b k => Flag b :: trace k reply n
  | RevokeObjectURL u k => Revoke u :: trace k reply n
  | ConsoleError _ _ k => trace k reply n
  | Fetch _ _ body k =>
      Request n body :: Reply n (reply n) :: trace (k (reply n)) reply (S n)
  end.

(** The requests of the loop over [items], numbered from [n]. *)
Fixpoint serial (items : list ImageFile) (reply : nat -> Outcome) (n : nat)
  : list Ev :=
  match items with
  | [] => []
  | item :: rest =>
      Request n [("image", EntryFile (file item))] :: Reply n (reply n)
      :: serial rest reply (S n)
  end.

(** How many requests are out after a prefix of a trace. *)
Fixpoint outstanding (evs : list Ev) (out : nat) : nat :=
  match evs with
  | [] => out
  | Request _ _ :: rest => outstanding rest (S out)
  | Reply _ _ :: rest => outstanding rest (pred out)
  | _ :: rest => outstanding rest out
  end.

Definition requests (evs : list Ev) : list FormData :=
  flat_map (fun ev => match ev with Request _ body => [body] | _ => [] end)
    evs.

(** *** Properties of handlers, over every outcome of every request *)

Fixpoint AllUpdates (P : Updater -> Prop) (t : Async unit) : Prop :=
  match t with
  | Return _ | Throw _ => True
  | SetImages f k => P f /\ AllUpdates P k
  | SetIsProcessing _ k | RevokeObjectURL _ k | ConsoleError _ _ k =>
      AllUpdates P k
  | Fetch _ _ _ k => forall o, AllUpdates P (k o)
  end.

Fixpoint NeverThrows {A} (t : Async A) : Prop :=
  match t with
  | Return _ => True
  | Throw _ => False
  | SetImages _ k | SetIsProcessing _ k | RevokeObjectURL _ k
  | ConsoleError _ _ k => NeverThrows k
  | Fetch _ _ _ k => forall o, NeverThrows (k o)
  end.

(** The handler never touches [isProcessing]. *)
Fixpoint NoFlag {A} (t : Async A) : Prop :=
  match t with
  | Return _ | Throw _ => True
  | SetIsProcessing _ _ => False
  | SetImages _ k | RevokeObjectURL _ k | ConsoleError _ _ k => NoFlag k
  | Fetch _ _ _ k => forall o, NoFlag (k o)
  end.

(** The rest of a batch: whatever the requests settle with, it leaves
    [isProcessing] alone until it sets it to [false] and returns. *)
Fixpoint BatchTail (t : Async unit) : Prop :=
  match t with
  | Return _ | Throw _ => False
  | SetIsProcessing b k => b = false /\ k = Return tt
  | SetImages _ k | RevokeObjectURL _ k | ConsoleError _ _ k => BatchTail k
  | Fetch _ _ _ k => forall o, BatchTail (k o)
  end.

(** An updater that changes no entry but those whose [id] is [i]. *)
Definition only_touches (i : string) (f : Updater) : Prop :=
  forall prev next,
    f prev = inr next ->
    List.length next = List.length prev /\
    forall k img, nth_error prev k = Some img -> id img <> i ->
                  nth_error next k = Some img.

(** An updater that does not throw. *)
Definition total (f : Updater) : Prop :=
  forall prev, exists next, f prev = inr next.

Definition keeps_empty (f : Updater) : Prop := f [] = inr [].

(** What holds of every request that is out: once it settles, the
    handler that sent it goes on as that kind of handler does. *)
Definition request_ok (r : InFlight) : Prop :=
  (forall o, AllUpdates keeps_empty (resume r o))
  /\ match origin r with
     | Single => forall o, NoFlag (resume r o)
     | Batch => forall o, BatchTail (resume r o)
     end.

(** The invariant of the page: [isProcessing] is set exactly while one
    request of a batch is out, and there is never a second one. *)
Definition Inv (w : World) : Prop :=
  Forall request_ok (inflight w)
  /\ List.length (batch_requests w) = if isProcessing w then 1 else 0.

Definition is_DropFiles (a : Action) : bool :=
  match a with
  | DropFiles _ => true
  | _ => false
  end.

Definition is_failure (o : Outcome) : bool :=
  match o with
  | inl _ => true
  | inr r => negb (Response.ok r)
  end.

End Client.

(** ** Concrete requests, files and page histories *)

Module Samples.

Definition photo : File := mkFile "photo.jpg" "image/jpeg" [x01; x02; x03; x04].

Definition scan : File := mkFile "scan.png" "image/png" [x05; x06].

Definition notes : File := mkFile "notes.gif" "image/gif" [x07].

Definition upload (f : File) : Server.NextRequest :=
  Server.mkRequest (inr [("image", EntryFile f)]).

(** A form whose [image] field is a text, as a field sent without a file
    name is. *)
Definition upload_text (value : string) : Server.NextRequest :=
  Server.mkRequest (inr [("image", EntryText value)]).

Definition empty_form : Server.NextRequest := Server.mkRequest (inr []).

Definition unreadable : Server.NextRequest :=
  Server.mkRequest (inl (ErrorObj "Failed to parse body as FormData.")).

(** A toolkit that answers every call. *)
Definition working : Server.Sharp :=
  {| Server.metadata := fun _ => inr (Server.mkMetadata (Some 2%N) (Some 1%N));
     Server.jpeg_toBuffer := fun _ => inr [xff; xd8; xff; xd9];
     Server.tiff_cmyk_toBuffer := fun _ => inr [x49; x49; x2a; x00; x08] |}.

(** A toolkit that rejects the input when asked to decode it. *)
Definition rejecting : Server.Sharp :=
  {| Server.metadata :=
       fun _ => inl (ErrorObj "Input buffer contains unsupported image format");
     Server.jpeg_toBuffer := fun _ => inr [xff; xd8; xff; xd9];
     Server.tiff_cmyk_toBuffer := fun _ => inr [x49; x49; x2a; x00; x08] |}.

Definition dropped_photo : Client.Accepted :=
  Client.mkAccepted photo "k3x9q2m1a" "blob:photo".

Definition dropped_scan : Client.Accepted :=
  Client.mkAccepted scan "z8w4t7b5c" "blob:scan".

Definition photo_item : Client.ImageFile :=
  Client.mkImageFile "k3x9q2m1a" photo "blob:photo" Client.Pending
    None None None None None.

Definition scan_item : Client.ImageFile :=
  Client.mkImageFile "z8w4t7b5c" scan "blob:scan" Client.Pending
    None None None None None.

(** A 200 answer of the endpoint whose [previewUrl] is [tag]. *)
Definition converted (tag : string) : Client.Outcome :=
  inr (Client.Response.mk true 200 (inr "")
         (inr (JObj [("success", JBool true); ("previewUrl", JStr tag);
                     ("downloadData", JStr "data:image/tiff;base64,SUkqAAg=");
                     ("filename", JStr "scan_cmyk.tiff")]))).

(** A 200 answer whose body is the JSON text [null]. *)
Definition nulled : Client.Outcome :=
  inr (Client.Response.mk true 200 (inr "null") (inr JNull)).

(** A 500 answer of the endpoint. *)
Definition refused : Client.Outcome :=
  inr (Client.Response.mk false 500
         (inr "{'error':'Failed to convert image. Please try again.'}")
         (inr (JObj [("error",
                      JStr "Failed to convert image. Please try again.")]))).

(** The connection fails. *)
Definition offline : Client.Outcome := inl (ErrorObj "Failed to fetch").

(** Two files are dropped and "Convert All" is clicked; while the first
    request is out, the second item's own button is clicked and its
    request settles first. *)
Definition overlapping : list Client.Action :=
  [Client.DropFiles [dropped_photo; dropped_scan];
   Client.ClickConvertAll;
   Client.ClickConvert 1;
   Client.Settle 1 (converted "data:image/jpeg;base64,Rmlyc3Q=")].

(** Then the batch's first request settles, and the loop goes on to the
    second item of its list. *)
Definition overlapping_next : list Client.Action :=
  overlapping ++ [Client.Settle 0 (converted "data:image/jpeg;base64,UGhvdG8=")].

(** Then that request settles too. *)
Definition overlapping_end : list Client.Action :=
  overlapping_next
  ++ [Client.Settle 0 (converted "data:image/jpeg;base64,U2Vjb25k")].

(** One file is dropped and "Convert All" is clicked. *)
Definition batch_running : list Client.Action :=
  [Client.DropFiles [dropped_photo]; Client.ClickConvertAll].

(** One file is dropped and its own button is clicked. *)
Definition single_running : list Client.Action :=
  [Client.DropFiles [dropped_photo]; Client.ClickConvert 0].

End Samples.

(** ** What the specification says, in its own words *)

Module Spec.

(** "the input filename truncated at the first [.] character" *)
Fixpoint up_to_first_dot (s : string) : string :=
  match s with
  | EmptyString => EmptyString
  | String c rest =>
      if Ascii.eqb c "."%char then EmptyString
      else String c (up_to_first_dot rest)
  end.

(** "the allowed set": [image/jpeg], [image/jpg], [image/png]. *)
Definition allowed (contentType : string) : Prop :=
  contentType = "image/jpeg" \/ contentType = "image/jpg"
  \/ contentType = "image/png".

Fixpoint starts_with (prefix s : string) : bool :=
  match prefix, s with
  | EmptyString, _ => true
  | String a prefix', String b s' => Ascii.eqb a b && starts_with prefix' s'
  | String _ _, EmptyString => false
  end.

(** The generic body of a 500 answer. *)
Definition generic_failure : Json :=
  JObj [("error", JStr "Failed to convert image. Please try again.")].

End Spec.

(** ** The paths through the handler *)

Module Paths.

Import Server.

Section WithSharp.

Context {sharp : Sharp}.

(** The whole behaviour of the handler, path by path. *)
Inductive Path (request : NextRequest) : Prop :=
| Unparsed e :
    formData request = inl e ->
    POST request = mkResponse 500 Spec.generic_failure ->
    sharp_calls request = [] ->
    Path request
| NoFile fd :
    formData request = inr fd ->
    FormData_get "image" fd = None ->
    POST request = mkResponse 400 (JObj [("error", JStr "No file provided")]) ->
    sharp_calls request = [] ->
    Path request
| EmptyText fd :
    formData request = inr fd ->
    FormData_get "image" fd = Some (EntryText "") ->
    POST request = mkResponse 400 (JObj [("error", JStr "No file provided")]) ->
    sharp_calls request = [] ->
    Path request
| SomeText fd value :
    formData request = inr fd ->
    FormData_get "image" fd = Some (EntryText value) ->
    value <> EmptyString ->
    POST request =
      mkResponse 400
        (JObj [("error",
                JStr "Invalid file type. Only JPG, JPEG, and PNG are supported.")]) ->
    sharp_calls request = [] ->
    Path request
| BadType fd f :
    formData request = inr fd ->
    FormData_get "image" fd = Some (EntryFile f) ->
    ~ Spec.allowed (type f) ->
    POST request =
      mkResponse 400
        (JObj [("error",
                JStr "Invalid file type. Only JPG, JPEG, and PNG are supported.")]) ->
    sharp_calls request = [] ->
    Path request
| Failed fd f :
    formData request = inr fd ->
    FormData_get "image" fd = Some (EntryFile f) ->
    Spec.allowed (type f) ->
    (exists e, metadata (arrayBuffer f) = inl e
               \/ jpeg_toBuffer (arrayBuffer f) = inl e
               \/ tiff_cmyk_toBuffer (arrayBuffer f) = inl e) ->
    POST request = mkResponse 500 Spec.generic_failure ->
    Path request
| Converted fd f md pv out :
    formData request = inr fd ->
    FormData_get "image" fd = Some (EntryFile f) ->
    Spec.allowed (type f) ->
    metadata (arrayBuffer f) = inr md ->
    jpeg_toBuffer (arrayBuffer f) = inr pv ->
    tiff_cmyk_toBuffer (arrayBuffer f) = inr out ->
    POST request =
      mkResponse 200
        (JObj [("success", JBool true);
               ("previewUrl", JStr ("data:image/jpeg;base64," ++ base64 pv));
               ("downloadData", JStr ("data:image/tiff;base64," ++ base64 out));
               ("filename", JStr (outputFilename (name f)));
               ("metadata",
                JObj (optional_number "width" (width md)
                      ++ optional_number "height" (height md)
                      ++ [("format", JStr "TIFF (CMYK)");
                          ("size", JNum (N.of_nat (List.length out)))]))]) ->
    Path request.

End WithSharp.

End Paths.

(** ** The effects of the handler, path by path *)

Module Traces.

Import Server.

Definition is_console_error (e : Effect) : bool :=
  match e with
  | ConsoleError _ _ => true
  | _ => false
  end.

Fixpoint count_char (c : ascii) (s : string) : nat :=
  match s with
  | EmptyString => 0
  | String c' rest =>
      (if Ascii.eqb c' c then 1 else 0) + count_char c rest
  end.

Definition called : Effect := ConsoleLog ["API route called - POST method"].

Definition received (file : option FormDataEntryValue) : Effect :=
  ConsoleLog ["File received:"; interpolate (entry_name file);
              interpolate (entry_type file)].

Definition processing : Effect := ConsoleLog ["Processing image with Sharp..."].

Definition caught (e : Thrown) : Effect := ConsoleError "Conversion error:" e.

Section WithSharp.

Context {sharp : Sharp}.

(** What one call logs and which toolkit calls it makes, with the status
    it answers. *)
Inductive Effects (request : NextRequest) : Prop :=
| E_unparsed e :
    formData request = inl e ->
    POST_effects request = [called; caught e] ->
    status (POST request) = 500 ->
    Effects request
| E_no_file fd :
    formData request = inr fd ->
    FormData_get "image" fd = None ->
    POST_effects request
    = [called; received None; ConsoleLog ["No file provided"]] ->
    status (POST request) = 400 ->
    Effects request
| E_empty_text fd :
    formData request = inr fd ->
    FormData_get "image" fd = Some (EntryText "") ->
    POST_effects request
    = [called; received (Some (EntryText ""));
       ConsoleLog ["No file provided"]] ->
    status (POST request) = 400 ->
    Effects request
| E_text fd value :
    formData request = inr fd ->
    FormData_get "image" fd = Some (EntryText value) ->
    value <> EmptyString ->
    POST_effects request
    = [called; received (Some (EntryText value));
       ConsoleLog ["Invalid file type:"; "undefined"]] ->
    status (POST request) = 400 ->
    Effects request
| E_bad_type fd f :
    formData request = inr fd ->
    FormData_get "image" fd = Some (EntryFile f) ->
    ~ Spec.allowed (type f) ->
    POST_effects request
    = [called; received (Some (EntryFile f)); ConsoleLog ["Invalid file type:"; type f]] ->
    status (POST request) = 400 ->
    Effects request
| E_metadata fd f e :
    formData request = inr fd ->
    FormData_get "image" fd = Some (EntryFile f) ->
    Spec.allowed (type f) ->
    metadata (arrayBuffer f) = inl e ->
    POST_effects request
    = [called; received (Some (EntryFile f)); processing;
       SharpMetadata (arrayBuffer f); caught e] ->
    status (POST request) = 500 ->
    Effects request
| E_jpeg fd f md e :
    formData request = inr fd ->
    FormData_get "image" fd = Some (EntryFile f) ->
    Spec.allowed (type f) ->
    metadata (arrayBuffer f) = inr md ->
    jpeg_toBuffer (arrayBuffer f) = inl e ->
    POST_effects request
    = [called; received (Some (EntryFile f)); processing;
       SharpMetadata (arrayBuffer f); SharpJpeg (arrayBuffer f); caught e] ->
    status (POST request) = 500 ->
    Effects request
| E_tiff fd f md pv e :
    formData request = inr fd ->
    FormData_get "image" fd = Some (EntryFile f) ->
    Spec.allowed (type f) ->
    metadata (arrayBuffer f) = inr md ->
    jpeg_toBuffer (arrayBuffer f) = inr pv ->
    tiff_cmyk_toBuffer (arrayBuffer f) = inl e ->
    POST_effects request
    = [called; received (Some (EntryFile f)); processing;
       SharpMetadata (arrayBuffer f); SharpJpeg (arrayBuffer f);
       SharpTiffCmyk (arrayBuffer f); caught e] ->
    status (POST request) = 500 ->
    Effects request
| E_converted fd f md pv out :
    formData request = inr fd ->
    FormData_get "image" fd = Some (EntryFile f) ->
    Spec.allowed (type f) ->
    metadata (arrayBuffer f) = inr md ->
    jpeg_toBuffer (arrayBuffer f) = inr pv ->
    tiff_cmyk_toBuffer (arrayBuffer f) = inr out ->
    POST_effects request
    = [called; received (Some (EntryFile f)); processing;
       SharpMetadata (arrayBuffer f); SharpJpeg (arrayBuffer f);
       SharpTiffCmyk (arrayBuffer f); ConsoleLog ["Conversion successful"]] ->
    status (POST request) = 200 ->
    Effects request.

End WithSharp.

(** A decoder that finds no width. *)
Definition widthless : Sharp :=
  {| metadata := fun _ => inr (mkMetadata None (Some 7%N));
     jpeg_toBuffer := fun _ => inr [xff; xd8; xff; xd9];
     tiff_cmyk_toBuffer := fun _ => inr [x49; x49; x2a; x00; x08] |}.

(** A toolkit that decodes and re-encodes but cannot write the TIFF. *)
Definition exhausted : Sharp :=
  {| metadata := fun _ => inr (mkMetadata (Some 2%N) (Some 1%N));
     jpeg_toBuffer := fun _ => inr [xff; xd8; xff; xd9];
     tiff_cmyk_toBuffer := fun _ => inl (NonError "out of memory") |}.

End Traces.

(** ** Saving a converted file *)

Module Download.

Import Client.

(** [atob(data)]: the forgiving base64 decode of the HTML standard.  ASCII
    whitespace is dropped; when the length is a multiple of four, one or
    two closing [=] are dropped; a length that leaves remainder one, or a
    character outside the alphabet, throws; every four characters give
    three bytes, and two or three left over give one or two. *)
Definition is_whitespace (c : ascii) : bool :=
  let n := N_of_ascii c in
  (n =? 9)%N || (n =? 10)%N || (n =? 12)%N || (n =? 13)%N || (n =? 32)%N.

Fixpoint index_of (c : ascii) (cs : list ascii) : option N :=
  match cs with
  | [] => None
  | c' :: rest =>
      if Ascii.eqb c c' then Some 0%N
      else option_map N.succ (index_of c rest)
  end.

Definition base64_value (c : ascii) : option N := index_of c base64_alphabet.

Fixpoint values (cs : list ascii) : option (list N) :=
  match cs with
  | [] => Some []
  | c :: rest =>
      match base64_value c, values rest with
      | Some v, Some vs => Some (v :: vs)
      | _, _ => None
      end
  end.

Definition strip_padding (cs : list ascii) : list ascii :=
  match rev cs with
  | [] => cs
  | last :: r =>
      if Ascii.eqb last "="%char then
        match r with
        | [] => rev r
        | before :: r' =>
            if Ascii.eqb before "="%char then rev r' else rev r
        end
      else cs
  end.

Fixpoint decode_values (vs : list N) : list N :=
  match vs with
  | [] => []
  | [_] => []
  | [a; b] => [((a * 64 + b) / 16)%N]
  | [a; b; c] =>
      let w := ((((a * 64 + b) * 64 + c)) / 4)%N in
      [(w / 256)%N; (w mod 256)%N]
  | a :: b :: c :: d :: rest =>
      let w := ((((a * 64 + b) * 64 + c) * 64 + d))%N in
      (w / 65536)%N :: ((w / 256) mod 256)%N :: (w mod 256)%N
      :: decode_values rest
  end.

Definition InvalidCharacterError : Thrown :=
  ErrorObj "The string to be decoded is not correctly encoded.".

Definition atob (data : string) : Result string :=
  let data :=
    filter (fun c => negb (is_whitespace c)) (list_ascii_of_string data) in
  let data :=
    if Nat.eqb (List.length data mod 4) 0 then strip_padding data else data in
  if Nat.eqb (List.length data mod 4) 1 then inl InvalidCharacterError
  else match values data with
       | None => inl InvalidCharacterError
       | Some vs =>
           inr (string_of_list_ascii (map ascii_of_N (decode_values vs)))
       end.

(** An element of a [Uint8Array] made from a number. *)
Definition uint8 (n : N) : byte :=
  match Byte.of_N (n mod 256) with
  | Some b => b
  | None => x00
  end.

(** [!v] is false: the value is there and is not [null], [false], [0] or
    the empty string. *)
Definition truthy (v : option Json) : bool :=
  match v with
  | None | Some JNull | Some (JBool false) | Some (JNum 0)
  | Some (JStr EmptyString) => false
  | Some _ => true
  end.

(** What [downloadImage] does to the document. *)
Inductive Dom : Type :=
| BlobURL (bytes : Buffer) (type : string)
| AppendAnchor (href : string) (download : Json)
| ClickAnchor
| RevokeURL (url : string)
| RemoveAnchor
| DownloadFailed (e : Thrown).

(** [url] is what [window.URL.createObjectURL(blob)] returns.  A value
    that is not a string has no [split]: the call throws inside the
    [try]. *)
Definition downloadImage (url : string) (imageFile : ImageFile) : list Dom :=
  if negb (truthy (downloadData imageFile))
     || negb (truthy (filename imageFile))
  then []
  else
    match downloadData imageFile, filename imageFile with
    | Some (JStr data), Some chosen =>
        let base64Data := nth_error (split "," data) 1 in
        match atob (interpolate base64Data) with
        | inl e => [DownloadFailed e]
        | inr byteCharacters =>
            let byteNumbers :=
              map N_of_ascii (list_ascii_of_string byteCharacters) in
            let byteArray := map uint8 byteNumbers in
            [BlobURL byteArray "image/tiff"; AppendAnchor url chosen;
             ClickAnchor; RevokeURL url; RemoveAnchor]
        end
    | _, _ =>
        [DownloadFailed
           (ErrorObj "imageFile.downloadData.split is not a function")]
    end.

(** The digits of the base64 text of a buffer, and its padding. *)
Fixpoint sextets (bs : Buffer) : list N :=
  match bs with
  | [] => []
  | [a] =>
      let w := word24 a x00 x00 in
      [N.land (N.shiftr w 18) 63; N.land (N.shiftr w 12) 63]
  | [a; b] =>
      let w := word24 a b x00 in
      [N.land (N.shiftr w 18) 63; N.land (N.shiftr w 12) 63;
       N.land (N.shiftr w 6) 63]
  | a :: b :: c :: rest =>
      let w := word24 a b c in
      N.land (N.shiftr w 18) 63 :: N.land (N.shiftr w 12) 63
      :: N.land (N.shiftr w 6) 63 :: N.land (N.shiftr w 0) 63
      :: sextets rest
  end.

Fixpoint padding (bs : Buffer) : list ascii :=
  match bs with
  | [] => []
  | [_] => ["="%char; "="%char]
  | [_; _] => ["="%char]
  | _ :: _ :: _ :: rest => padding rest
  end.

(** What the decoder needs of a digit of the alphabet. *)
Definition digit_ok (n : N) : bool :=
  match base64_value (base64_digit n) with
  | Some m => N.eqb m n
  | None => false
  end
  && negb (Ascii.eqb (base64_digit n) "=")
  && negb (Ascii.eqb (base64_digit n) ",")
  && negb (is_whitespace (base64_digit n)).

End Download.

(** ** Histories of the page *)

Module Histories.

Import Client.

(** What a conversion never changes of an item. *)
Definition core (img : ImageFile) : string * File * string :=
  (id img, file img, preview img).

(** An entry after an update: the same item, and not back to [pending]
    unless it was left alone. *)
Definition evolves (old new : ImageFile) : Prop :=
  core new = core old /\ (status new = Pending -> new = old).

(** An updater that, when it does not throw, keeps every entry in its
    place as the same item. *)
Definition itemwise (f : Updater) : Prop :=
  forall prev next, f prev = inr next -> Forall2 evolves prev next.

(** A pending item carries no result and no error. *)
Definition clean (img : ImageFile) : Prop :=
  status img = Pending ->
  previewUrl img = None /\ downloadData img = None /\ filename img = None
  /\ metadata img = None /\ error img = None.

(** The form [convertImage] sends: the one field [image], a file. *)
Definition image_form (body : FormData) : Prop :=
  exists f, body = [("image", EntryFile f)].

Fixpoint AllFetches (Q : FormData -> Prop) (t : Async unit) : Prop :=
  match t with
  | Return _ | Throw _ => True
  | SetImages _ k | SetIsProcessing _ k | RevokeObjectURL _ k
  | ConsoleError _ _ k => AllFetches Q k
  | Fetch _ _ body k => Q body /\ forall o, AllFetches Q (k o)
  end.

(** An answer with an ok status whose body is the JSON text [null]. *)
Definition null_body (o : Outcome) : bool :=
  match o with
  | inl _ => false
  | inr response =>
      Response.ok response
      && match Response.json response with
         | inr JNull => true
         | _ => false
         end
  end.

(** A handler whose updaters do not throw, except, at most, those it
    runs after a request of its own was answered with a null body and
    before its next request. *)
Fixpoint Tame (strict : bool) (t : Async unit) : Prop :=
  match t with
  | Return _ | Throw _ => True
  | SetImages f k => (strict = true -> total f) /\ Tame strict k
  | SetIsProcessing _ k | RevokeObjectURL _ k | ConsoleError _ _ k =>
      Tame strict k
  | Fetch _ _ _ k => forall o, Tame (negb (null_body o)) (k o)
  end.

(** What holds of every request out and of every request sent. *)
Definition Sound (w : World) : Prop :=
  Forall (fun r => forall o, AllUpdates itemwise (resume r o)
                             /\ AllFetches image_form (resume r o)
                             /\ Tame (negb (null_body o)) (resume r o))
    (inflight w)
  /\ Forall (fun ev => match ev with
                       | Requested _ body => image_form body
                       | _ => True
                       end) (log w).










(** The requests out settle one after the other, oldest first. *)
Definition settle_in_turn (w : World) (outcomes : list Outcome) : World :=
  fold_left (fun w o => step w (Settle 0 o)) outcomes w.




End Histories.

(** * The endpoint: proofs *)

Module ServerFacts.

Import Server Paths.

(** *** The base64 text *)

Lemma base64_examples :
  base64 [x4d; x61; x6e] = "TWFu"
  /\ base64 [x4d; x61] = "TWE="
  /\ base64 [x4d] = "TQ=="
  /\ base64 [x49; x49; x2a; x00; x08] = "SUkqAAg=".
Proof. repeat split; reflexivity. Qed.

Lemma base64_length_upto (n : nat) :
  forall bs : Buffer,
    List.length bs <= n ->
    String.length (base64 bs) = 4 * ((List.length bs + 2) / 3).
Proof.
  induction n as [| n IH]; intros bs Hlen.
  - destruct bs; [reflexivity | simpl in Hlen; lia].
  - destruct bs as [| a [| b [| c rest]]]; try reflexivity.
    cbn [base64 String.length List.length].
    rewrite IH by (simpl in Hlen; lia).
    replace (S (S (S (List.length rest))) + 2)
      with (List.length rest + 2 + 1 * 3) by lia.
    rewrite Nat.div_add by lia. lia.
Qed.

(** Four characters for every three bytes, rounded up. *)
Lemma base64_length (bs : Buffer) :
  String.length (base64 bs) = 4 * ((List.length bs + 2) / 3).
Proof. exact (@base64_length_upto (List.length bs) bs (le_n _)). Qed.

(** The text is longer than the bytes it encodes: the [size] of the
    answer is the latter. *)
Lemma base64_longer (bs : Buffer) :
  bs <> [] -> List.length bs < String.length (base64 bs).
Proof.
  intros Hne. rewrite base64_length.
  destruct bs as [| a rest]; [congruence |]. simpl List.length.
  pose proof (Nat.div_mod_eq (S (List.length rest) + 2) 3) as Hdiv.
  pose proof (Nat.mod_upper_bound (S (List.length rest) + 2) 3) as Hmod.
  lia.
Qed.

#[local] Arguments includes : simpl never.
#[local] Arguments base64 : simpl never.
#[local] Arguments outputFilename : simpl never.

Ltac unfold_handler :=
  unfold sharp_calls, POST, POST_effects, POST_traced, POST_body,
    try_catch, bind, await, emit, ret, json.

Lemma includes_allowed (t : string) :
  includes allowedTypes t = true <-> Spec.allowed t.
Proof.
  unfold includes, allowedTypes, Spec.allowed. simpl.
  rewrite !orb_true_iff, !String.eqb_eq. intuition discriminate.
Qed.

Lemma includes_not_allowed (t : string) :
  includes allowedTypes t = false <-> ~ Spec.allowed t.
Proof.
  rewrite <- includes_allowed. destruct (includes allowedTypes t); split;
    congruence.
Qed.

Section WithSharp.

Context {sharp : Sharp}.

Lemma POST_path (request : NextRequest) : Path request.
Proof.
  destruct request as [[e | fd]].
  - eapply Unparsed; reflexivity.
  - destruct (FormData_get "image" fd) as [[value | f] |] eqn:Hget.
    + destruct value as [| c rest].
      * eapply (@EmptyText _ _ fd); try eassumption; try reflexivity;
          unfold_handler; simpl; rewrite Hget; reflexivity.
      * eapply (@SomeText _ _ fd (String c rest)); try eassumption;
          try reflexivity; try discriminate;
          unfold_handler; simpl; rewrite Hget; reflexivity.
    + destruct (includes allowedTypes (type f)) eqn:Hty.
      * apply includes_allowed in Hty as Hok.
        destruct (metadata (arrayBuffer f)) as [e | md] eqn:Hmd.
        { eapply (@Failed _ _ fd f); [reflexivity | exact Hget | exact Hok | eauto | ].
          unfold_handler; simpl. rewrite Hget; simpl. rewrite Hty; simpl.
          rewrite Hmd. reflexivity. }
        destruct (jpeg_toBuffer (arrayBuffer f)) as [e | pv] eqn:Hpv.
        { eapply (@Failed _ _ fd f); [reflexivity | exact Hget | exact Hok | eauto | ].
          unfold_handler; simpl. rewrite Hget; simpl. rewrite Hty; simpl.
          rewrite Hmd, Hpv. reflexivity. }
        destruct (tiff_cmyk_toBuffer (arrayBuffer f)) as [e | out] eqn:Hout.
        { eapply (@Failed _ _ fd f); [reflexivity | exact Hget | exact Hok | eauto | ].
          unfold_handler; simpl. rewrite Hget; simpl. rewrite Hty; simpl.
          rewrite Hmd, Hpv, Hout. reflexivity. }
        eapply (@Converted _ _ fd f md pv out); try eassumption; try reflexivity.
        unfold_handler; simpl. rewrite Hget; simpl. rewrite Hty; simpl.
        rewrite Hmd, Hpv, Hout. reflexivity.
      * apply includes_not_allowed in Hty as Hbad.
        eapply (@BadType _ _ fd f); try eassumption; try reflexivity;
          unfold_handler; simpl; rewrite Hget; simpl; rewrite Hty; reflexivity.
    + eapply (@NoFile _ _ fd); try eassumption; try reflexivity;
        unfold_handler; simpl; rewrite Hget; reflexivity.
Qed.

(** The handler's own [catch] answers every throw: the call always ends
    with a response of the handler. *)
Lemma POST_always_answers (request : NextRequest) :
  exists response, fst (POST_traced request []) = inr response.
Proof.
  unfold POST_traced, try_catch.
  destruct (POST_body request []) as [[e | response] tr]; simpl; eauto.
Qed.

(** [split('.')[0]] is the name up to its first dot. *)
Lemma split_first_piece (s : string) :
  nth_error (split "." s) 0 = Some (Spec.up_to_first_dot s).
Proof.
  induction s as [| c rest IH]; simpl; [reflexivity |].
  destruct (Ascii.eqb c "."); [reflexivity |].
  destruct (split "." rest) as [| piece pieces]; simpl in *; congruence.
Qed.

Lemma outputFilename_spec (fileName : string) :
  outputFilename fileName = (Spec.up_to_first_dot fileName ++ "_cmyk.tiff")%string.
Proof. unfold outputFilename. now rewrite split_first_piece. Qed.

Lemma up_to_first_dot_has_no_dot (s : string) :
  ~ In "."%char (list_ascii_of_string (Spec.up_to_first_dot s)).
Proof.
  induction s as [| c rest IH]; simpl; [tauto |].
  destruct (Ascii.eqb_spec c "."); simpl; [tauto |].
  intros [Heq | Hin]; [congruence | tauto].
Qed.

Lemma up_to_first_dot_is_prefix (s : string) :
  Spec.up_to_first_dot s = s
  \/ exists rest, s = (Spec.up_to_first_dot s ++ String "." rest)%string.
Proof.
  induction s as [| c rest IH]; simpl; [now left |].
  destruct (Ascii.eqb_spec c ".") as [-> | Hne]; simpl.
  - right. now exists rest.
  - destruct IH as [-> | [rest' Hrest]]; [now left |].
    right. exists rest'. now rewrite <- Hrest.
Qed.

Lemma outputFilename_examples :
  outputFilename "photo.jpg" = "photo_cmyk.tiff"
  /\ outputFilename "archive.tar.png" = "archive_cmyk.tiff"
  /\ outputFilename "README" = "README_cmyk.tiff"
  /\ outputFilename ".htaccess" = "_cmyk.tiff".
Proof. repeat split; reflexivity. Qed.

Lemma metadata_fields (w h : option N) (size : N) :
  let m := JObj (optional_number "width" w ++ optional_number "height" h
                 ++ [("format", JStr "TIFF (CMYK)"); ("size", JNum size)]) in
  field "format" m = Some (JStr "TIFF (CMYK)")
  /\ field "size" m = Some (JNum size).
Proof. destruct w, h; split; reflexivity. Qed.

(** The handler on four requests. *)
Example POST_photo :
  @POST Samples.working (Samples.upload Samples.photo)
  = mkResponse 200
      (JObj [("success", JBool true);
             ("previewUrl", JStr "data:image/jpeg;base64,/9j/2Q==");
             ("downloadData", JStr "data:image/tiff;base64,SUkqAAg=");
             ("filename", JStr "photo_cmyk.tiff");
             ("metadata",
              JObj [("width", JNum 2); ("height", JNum 1);
                    ("format", JStr "TIFF (CMYK)"); ("size", JNum 5)])]).
Proof. reflexivity. Qed.

Example POST_notes :
  @POST Samples.working (Samples.upload Samples.notes)
  = mkResponse 400
      (JObj [("error",
              JStr "Invalid file type. Only JPG, JPEG, and PNG are supported.")])
  /\ @POST_effects Samples.working (Samples.upload Samples.notes)
     = [ConsoleLog ["API route called - POST method"];
        ConsoleLog ["File received:"; "notes.gif"; "image/gif"];
        ConsoleLog ["Invalid file type:"; "image/gif"]].
Proof. split; reflexivity. Qed.

Example POST_empty_form :
  @POST Samples.working Samples.empty_form
  = mkResponse 400 (JObj [("error", JStr "No file provided")]).
Proof. reflexivity. Qed.

Example POST_rejected_photo :
  @POST Samples.rejecting (Samples.upload Samples.photo)
  = mkResponse 500 Spec.generic_failure
  /\ @sharp_calls Samples.rejecting (Samples.upload Samples.photo)
     = [SharpMetadata [x01; x02; x03; x04]].
Proof. split; reflexivity. Qed.

(** C1, amended.  [POST] answers 400 exactly when the parsed form has no
    [image] entry, or the entry is a text and not a file, or it is a file
    whose declared content type is outside [image/jpeg], [image/jpg],
    [image/png].  The body reads "No file provided" when the entry is
    absent or is the empty text, and starts with "Invalid file type" when
    it is any other text or a file of another type; and no toolkit call
    has been made when a 400 is answered. *)
Theorem C1_bad_request_amended (request : NextRequest) :
  (status (POST request) = 400 <->
   exists fd, formData request = inr fd /\
     (FormData_get "image" fd = None
      \/ (exists value, FormData_get "image" fd = Some (EntryText value))
      \/ exists f, FormData_get "image" fd = Some (EntryFile f)
                   /\ ~ Spec.allowed (type f)))
  /\ (forall fd, formData request = inr fd ->
        FormData_get "image" fd = None
        \/ FormData_get "image" fd = Some (EntryText "") ->
        body (POST request) = JObj [("error", JStr "No file provided")])
  /\ (forall fd, formData request = inr fd ->
        (exists value, value <> EmptyString
                       /\ FormData_get "image" fd = Some (EntryText value))
        \/ (exists f, FormData_get "image" fd = Some (EntryFile f)
                      /\ ~ Spec.allowed (type f)) ->
        exists msg, body (POST request) = JObj [("error", JStr msg)]
                    /\ Spec.starts_with "Invalid file type" msg = true)
  /\ (status (POST request) = 400 -> sharp_calls request = []).
Proof.
  assert (Hsame : forall fd fd' : FormData,
            formData request = inr fd -> formData request = inr fd' ->
            fd' = fd) by (intros; congruence).
  destruct (POST_path request)
    as [e Hfd Hr Hs | fd Hfd Hget Hr Hs | fd Hfd Hget Hr Hs
        | fd value Hfd Hget Hne Hr Hs | fd f Hfd Hget Hty Hr Hs
        | fd f Hfd Hget Hty Hex Hr
        | fd f md pv out Hfd Hget Hty Hmd Hpv Hout Hr];
    rewrite Hr; simpl.
  - (* the form does not parse *)
    split; [split; [discriminate | intros (fd & Hfd' & _); congruence] |].
    split; [intros fd Hfd'; congruence |].
    split; [intros fd Hfd'; congruence | discriminate].
  - (* no entry *)
    split; [split; [intros _; exists fd; auto | reflexivity] |].
    split; [reflexivity |].
    split; [| intros _; exact Hs].
    intros fd' Hfd' Hcase. rewrite (Hsame _ _ Hfd Hfd') in Hcase.
    destruct Hcase as [(v & _ & H) | (f & H & _)]; congruence.
  - (* the empty text *)
    split; [split; [intros _; exists fd; eauto | reflexivity] |].
    split; [reflexivity |].
    split; [| intros _; exact Hs].
    intros fd' Hfd' Hcase. rewrite (Hsame _ _ Hfd Hfd') in Hcase.
    destruct Hcase as [(v & Hv & H) | (f & H & _)]; congruence.
  - (* another text *)
    split; [split; [intros _; exists fd; eauto | reflexivity] |].
    split.
    { intros fd' Hfd' Hcase. rewrite (Hsame _ _ Hfd Hfd') in Hcase.
      destruct Hcase as [H | H]; congruence. }
    split; [| intros _; exact Hs].
    intros _ _ _. eexists. split; reflexivity.
  - (* a file of another type *)
    split; [split; [intros _; exists fd; eauto 6 | reflexivity] |].
    split.
    { intros fd' Hfd' Hcase. rewrite (Hsame _ _ Hfd Hfd') in Hcase.
      destruct Hcase as [H | H]; congruence. }
    split; [| intros _; exact Hs].
    intros _ _ _. eexists. split; reflexivity.
  - (* the toolkit throws *)
    split.
    { split; [discriminate |].
      intros (fd' & Hfd' & Hcase). rewrite (Hsame _ _ Hfd Hfd') in Hcase.
      destruct Hcase as [H | [(v & H) | (f' & H & Hbad)]]; congruence. }
    split.
    { intros fd' Hfd' Hcase. rewrite (Hsame _ _ Hfd Hfd') in Hcase.
      destruct Hcase as [H | H]; congruence. }
    split; [| discriminate].
    intros fd' Hfd' Hcase. rewrite (Hsame _ _ Hfd Hfd') in Hcase.
    destruct Hcase as [(v & _ & H) | (f' & H & Hbad)]; congruence.
  - (* converted *)
    split.
    { split; [discriminate |].
      intros (fd' & Hfd' & Hcase). rewrite (Hsame _ _ Hfd Hfd') in Hcase.
      destruct Hcase as [H | [(v & H) | (f' & H & Hbad)]]; congruence. }
    split.
    { intros fd' Hfd' Hcase. rewrite (Hsame _ _ Hfd Hfd') in Hcase.
      destruct Hcase as [H | H]; congruence. }
    split; [| discriminate].
    intros fd' Hfd' Hcase. rewrite (Hsame _ _ Hfd Hfd') in Hcase.
    destruct Hcase as [(v & _ & H) | (f' & H & Hbad)]; congruence.
Qed.

(** C2.  When the upload is accepted and the three toolkit calls succeed,
    the answer is 200 and its body has [success] true, [previewUrl] and
    [downloadData] the base64 data URIs of the JPEG preview and of the
    TIFF output, a [filename] string, and [metadata] whose [format] is
    "TIFF (CMYK)" and whose [size] is the number of bytes of the TIFF
    output. *)
Theorem C2_success_body (request : NextRequest) (fd : FormData) (f : File)
    (md : Metadata) (pv out : Buffer) :
  formData request = inr fd ->
  FormData_get "image" fd = Some (EntryFile f) ->
  Spec.allowed (type f) ->
  metadata (arrayBuffer f) = inr md ->
  jpeg_toBuffer (arrayBuffer f) = inr pv ->
  tiff_cmyk_toBuffer (arrayBuffer f) = inr out ->
  let answer := body (POST request) in
  status (POST request) = 200
  /\ field "success" answer = Some (JBool true)
  /\ field "previewUrl" answer
     = Some (JStr ("data:image/jpeg;base64," ++ base64 pv))
  /\ field "downloadData" answer
     = Some (JStr ("data:image/tiff;base64," ++ base64 out))
  /\ (exists s, field "filename" answer = Some (JStr s))
  /\ (exists m, field "metadata" answer = Some m
                /\ field "format" m = Some (JStr "TIFF (CMYK)")
                /\ field "size" m = Some (JNum (N.of_nat (List.length out)))).
Proof.
  intros Hfd Hget Hty Hmd Hpv Hout.
  destruct (POST_path request)
    as [e Hfd' _ _ | fd' Hfd' Hget' _ _ | fd' Hfd' Hget' _ _
        | fd' v' Hfd' Hget' _ _ _ | fd' f' Hfd' Hget' Hty' _ _
        | fd' f' Hfd' Hget' _ Hex _
        | fd' f' md' pv' out' Hfd' Hget' _ Hmd' Hpv' Hout' Hr];
    rewrite Hfd in Hfd'; try discriminate; injection Hfd' as <-;
    rewrite Hget in Hget'; try discriminate; injection Hget' as <-.
  - contradiction.
  - destruct Hex as (e & [He | [He | He]]); congruence.
  - rewrite Hmd in Hmd'; injection Hmd' as <-.
    rewrite Hpv in Hpv'; injection Hpv' as <-.
    rewrite Hout in Hout'; injection Hout' as <-.
    rewrite Hr; simpl. repeat split; try reflexivity.
    + eexists; reflexivity.
    + eexists; split; [reflexivity |]. apply metadata_fields.
Qed.

(** C3.  The [filename] of a successful answer is the uploaded file's
    name cut at its first dot, followed by "_cmyk.tiff". *)
Theorem C3_filename (request : NextRequest) (fd : FormData) (f : File) :
  formData request = inr fd ->
  FormData_get "image" fd = Some (EntryFile f) ->
  status (POST request) = 200 ->
  field "filename" (body (POST request))
  = Some (JStr (Spec.up_to_first_dot (name f) ++ "_cmyk.tiff")).
Proof.
  intros Hfd Hget H200.
  destruct (POST_path request)
    as [e _ Hr _ | fd' _ _ Hr _ | fd' _ _ Hr _ | fd' v' _ _ _ Hr _
        | fd' f' _ _ _ Hr _ | fd' f' _ _ _ _ Hr
        | fd' f' md pv out Hfd' Hget' _ _ _ _ Hr];
    rewrite Hr in H200; try discriminate.
  rewrite Hfd in Hfd'; injection Hfd' as <-.
  rewrite Hget in Hget'; injection Hget' as <-.
  rewrite Hr; simpl. now rewrite outputFilename_spec.
Qed.

(** C4.  When the upload passes validation and any of the three toolkit
    calls throws, the answer is 500 with the one generic body, whatever
    was thrown. *)
Theorem C4_processing_failure (request : NextRequest) (fd : FormData)
    (f : File) (e : Thrown) :
  formData request = inr fd ->
  FormData_get "image" fd = Some (EntryFile f) ->
  Spec.allowed (type f) ->
  metadata (arrayBuffer f) = inl e
  \/ jpeg_toBuffer (arrayBuffer f) = inl e
  \/ tiff_cmyk_toBuffer (arrayBuffer f) = inl e ->
  POST request = mkResponse 500 Spec.generic_failure.
Proof.
  intros Hfd Hget Hty Hthrow.
  destruct (POST_path request)
    as [e' Hfd' _ _ | fd' Hfd' Hget' _ _ | fd' Hfd' Hget' _ _
        | fd' v' Hfd' Hget' _ _ _ | fd' f' Hfd' Hget' Hty' _ _
        | fd' f' _ _ _ _ Hr
        | fd' f' md pv out Hfd' Hget' _ Hmd Hpv Hout _];
    try exact Hr;
    rewrite Hfd in Hfd'; try discriminate; injection Hfd' as <-;
    rewrite Hget in Hget'; try discriminate; injection Hget' as <-.
  - contradiction.
  - destruct Hthrow as [He | [He | He]]; congruence.
Qed.

(** C10.  When [request.formData()] throws, the answer is 500 with the
    generic body, not 400, and nothing was validated or processed. *)
Theorem C10_unparsed_body (request : NextRequest) (e : Thrown) :
  formData request = inl e ->
  POST request = mkResponse 500 Spec.generic_failure
  /\ status (POST request) <> 400
  /\ sharp_calls request = [].
Proof.
  intros Hfd.
  destruct (POST_path request)
    as [e' _ Hr Hs | fd' Hfd' _ _ _ | fd' Hfd' _ _ _
        | fd' v' Hfd' _ _ _ _ | fd' f' Hfd' _ _ _ _
        | fd' f' Hfd' _ _ _ _ | fd' f' md pv out Hfd' _ _ _ _ _ _];
    try congruence.
  rewrite Hr. repeat split; [discriminate | exact Hs].
Qed.

End WithSharp.

Lemma C1_bad_request_amended_witness :
  status (@POST Samples.working (Samples.upload_text "hello")) = 400
  /\ @sharp_calls Samples.working (Samples.upload_text "hello") = [].
Proof.
  pose proof (@C1_bad_request_amended Samples.working
                (Samples.upload_text "hello")) as (Hiff & _ & _ & Hcalls).
  assert (H400 : status (@POST Samples.working (Samples.upload_text "hello"))
                 = 400).
  { apply Hiff. exists [("image", EntryText "hello")].
    split; [reflexivity |]. right. left. exists "hello". reflexivity. }
  split; [exact H400 | exact (Hcalls H400)].
Defined.

(** C1, as the claim states it, fails on a form whose [image] field is a
    text.  With the text "hello" the field is there and no file is, yet
    the answer is 400; with the empty text the field is there, yet the
    body reads "No file provided". *)
Lemma C1_text_field_counterexample :
  status (@POST Samples.working (Samples.upload_text "hello")) = 400
  /\ FormData_get "image" [("image", EntryText "hello")] <> None
  /\ (forall f, FormData_get "image" [("image", EntryText "hello")]
                <> Some (EntryFile f))
  /\ body (@POST Samples.working (Samples.upload_text ""))
     = JObj [("error", JStr "No file provided")]
  /\ FormData_get "image" [("image", EntryText "")] <> None
  /\ ~ (forall request : NextRequest,
          status (@POST Samples.working request) = 400 <->
          exists fd, formData request = inr fd /\
            (FormData_get "image" fd = None
             \/ exists f, FormData_get "image" fd = Some (EntryFile f)
                          /\ ~ Spec.allowed (type f)))
  /\ ~ (forall (request : NextRequest) (fd : FormData),
          formData request = inr fd ->
          FormData_get "image" fd <> None ->
          status (@POST Samples.working request) = 400 ->
          exists msg,
            body (@POST Samples.working request) = JObj [("error", JStr msg)]
            /\ Spec.starts_with "Invalid file type" msg = true).
Proof.
  split; [reflexivity |]. split; [discriminate |].
  split; [intros f; discriminate |]. split; [reflexivity |].
  split; [discriminate |]. split.
  - intros Hclaim.
    destruct (proj1 (Hclaim (Samples.upload_text "hello")) eq_refl)
      as (fd & Hfd & Hcase).
    simpl in Hfd. injection Hfd as <-.
    destruct Hcase as [H | (f & H & _)]; discriminate H.
  - intros Hclaim.
    destruct (Hclaim (Samples.upload_text "") [("image", EntryText "")]
                eq_refl) as (msg & Hbody & Hstart);
      [discriminate | reflexivity |].
    change (JObj [("error", JStr "No file provided")]
            = JObj [("error", JStr msg)]) in Hbody.
    injection Hbody as <-. discriminate Hstart.
Qed.

Lemma C2_success_body_witness :
  status (@POST Samples.working (Samples.upload Samples.photo)) = 200
  /\ exists m,
       field "metadata"
         (body (@POST Samples.working (Samples.upload Samples.photo))) = Some m
       /\ field "size" m = Some (JNum 5).
Proof.
  destruct (@C2_success_body Samples.working (Samples.upload Samples.photo)
              [("image", EntryFile Samples.photo)] Samples.photo
              (mkMetadata (Some 2%N) (Some 1%N))
              [xff; xd8; xff; xd9] [x49; x49; x2a; x00; x08]
              eq_refl eq_refl (or_introl eq_refl) eq_refl eq_refl eq_refl)
    as (H200 & _ & _ & _ & _ & m & Hm & _ & Hsize).
  split; [exact H200 |]. exists m. split; [exact Hm | exact Hsize].
Defined.

Lemma C3_filename_witness :
  field "filename"
    (body (@POST Samples.working (Samples.upload Samples.photo)))
  = Some (JStr "photo_cmyk.tiff").
Proof.
  exact (@C3_filename Samples.working (Samples.upload Samples.photo)
           [("image", EntryFile Samples.photo)] Samples.photo eq_refl eq_refl eq_refl).
Defined.

Lemma C4_processing_failure_witness :
  @POST Samples.rejecting (Samples.upload Samples.photo)
  = mkResponse 500 Spec.generic_failure.
Proof.
  exact (@C4_processing_failure Samples.rejecting
           (Samples.upload Samples.photo) [("image", EntryFile Samples.photo)]
           Samples.photo
           (ErrorObj "Input buffer contains unsupported image format")
           eq_refl eq_refl (or_introl eq_refl) (or_introl eq_refl)).
Defined.

Lemma C10_unparsed_body_witness :
  @POST Samples.working Samples.unreadable
  = mkResponse 500 Spec.generic_failure.
Proof.
  exact (proj1 (@C10_unparsed_body Samples.working Samples.unreadable
                  (ErrorObj "Failed to parse body as FormData.") eq_refl)).
Defined.

End ServerFacts.

(** * The page: proofs *)

Module ClientFacts.

Import Client.

#[local] Arguments convertImage : simpl never.

(** *** The combinators *)

Section Combinators.

Variable P : Updater -> Prop.

Lemma AllUpdates_bind (t : Async unit) (k : unit -> Async unit) :
  AllUpdates P t -> (forall u, AllUpdates P (k u)) ->
  AllUpdates P (bind t k).
Proof.
  intros Ht Hk. induction t as [a | e | f t IH | b t IH | u t IH | l e t IH
                                | u m body t IH]; simpl in *; auto.
  destruct Ht; auto.
Qed.

Lemma AllUpdates_try_catch (t : Async unit) (h : Thrown -> Async unit) :
  AllUpdates P t -> (forall e, AllUpdates P (h e)) ->
  AllUpdates P (try_catch t h).
Proof.
  intros Ht Hh. induction t as [a | e | f t IH | b t IH | u t IH | l e t IH
                                | u m body t IH]; simpl in *; auto.
  destruct Ht; auto.
Qed.

Lemma AllUpdates_for_each {X} (xs : list X) (body : X -> Async unit) :
  (forall x, AllUpdates P (body x)) -> AllUpdates P (for_each xs body).
Proof.
  intros Hbody. induction xs as [| x rest IH]; simpl; [exact I |].
  apply AllUpdates_bind; auto.
Qed.

End Combinators.

Lemma NoFlag_bind {A B} (t : Async A) (k : A -> Async B) :
  NoFlag t -> (forall a, NoFlag (k a)) -> NoFlag (bind t k).
Proof.
  intros Ht Hk. induction t; simpl in *; auto; try contradiction.
Qed.

Lemma NoFlag_try_catch {A} (t : Async A) (h : Thrown -> Async A) :
  NoFlag t -> (forall e, NoFlag (h e)) -> NoFlag (try_catch t h).
Proof.
  intros Ht Hh. induction t; simpl in *; auto; try contradiction.
Qed.

Lemma NoFlag_for_each {X} (xs : list X) (body : X -> Async unit) :
  (forall x, NoFlag (body x)) -> NoFlag (for_each xs body).
Proof.
  intros Hbody. induction xs as [| x rest IH]; simpl; [exact I |].
  apply NoFlag_bind; auto.
Qed.

Lemma NeverThrows_bind {A B} (t : Async A) (k : A -> Async B) :
  NeverThrows t -> (forall a, NeverThrows (k a)) -> NeverThrows (bind t k).
Proof.
  intros Ht Hk. induction t; simpl in *; auto.
Qed.

(** A [catch] whose handler does not throw leaves nothing to escape,
    whatever the body throws. *)
Lemma NeverThrows_try_catch {A} (t : Async A) (h : Thrown -> Async A) :
  (forall e, NeverThrows (h e)) -> NeverThrows (try_catch t h).
Proof.
  intros Hh. induction t; simpl in *; auto.
Qed.

Lemma NeverThrows_for_each {X} (xs : list X) (body : X -> Async unit) :
  (forall x, NeverThrows (body x)) -> NeverThrows (for_each xs body).
Proof.
  intros Hbody. induction xs as [| x rest IH]; simpl; [exact I |].
  apply NeverThrows_bind; auto.
Qed.

(** A handler that returns and leaves the flag alone, followed by the
    rest of a batch, is the rest of a batch. *)
Lemma BatchTail_bind (t : Async unit) (k : unit -> Async unit) :
  NoFlag t -> NeverThrows t -> (forall u, BatchTail (k u)) ->
  BatchTail (bind t k).
Proof.
  intros Hflag Hthrow Hk.
  induction t; simpl in *; auto; try contradiction.
Qed.

(** *** The updaters of [convertImage] *)

Lemma map_items_length g prev next :
  map_items g prev = inr next -> List.length next = List.length prev.
Proof.
  revert next. induction prev as [| img rest IH]; intros next H; simpl in *.
  - now injection H as <-.
  - destruct (g img) as [e | img']; [discriminate |].
    destruct (map_items g rest) as [e | rest']; [discriminate |].
    injection H as <-. simpl. now rewrite (IH rest').
Qed.

Lemma map_items_nth g prev next k img :
  map_items g prev = inr next -> nth_error prev k = Some img ->
  exists img', g img = inr img' /\ nth_error next k = Some img'.
Proof.
  revert next k. induction prev as [| x rest IH]; intros next k H Hk;
    simpl in *; [destruct k; discriminate |].
  destruct (g x) as [e | x'] eqn:Hx; [discriminate |].
  destruct (map_items g rest) as [e | rest'] eqn:Hrest; [discriminate |].
  injection H as <-. destruct k as [| k]; simpl in *.
  - injection Hk as <-. now exists x'.
  - now apply (IH rest').
Qed.

(** A map whose function does not throw does not throw. *)
Lemma map_items_total g prev :
  (forall img, In img prev -> exists img', g img = inr img') ->
  exists next, map_items g prev = inr next.
Proof.
  induction prev as [| x rest IH]; intros Hg; simpl; [now exists [] |].
  destruct (Hg x (or_introl eq_refl)) as [x' ->].
  destruct IH as [rest' ->]; [intros; apply Hg; now right |].
  now exists (x' :: rest').
Qed.

Lemma update_matching_length imageFile change prev next :
  update_matching imageFile change prev = inr next ->
  List.length next = List.length prev.
Proof. apply map_items_length. Qed.

Lemma update_matching_only_touches imageFile change :
  only_touches (id imageFile) (update_matching imageFile change).
Proof.
  intros prev next Hnext. split; [now apply update_matching_length in Hnext |].
  intros k img Hk Hid.
  destruct (map_items_nth _ _ _ Hnext Hk) as (img' & Himg' & Hnth).
  destruct (String.eqb_spec (id img) (id imageFile)); congruence.
Qed.

Lemma update_matching_keeps_empty imageFile change :
  keeps_empty (update_matching imageFile change).
Proof. reflexivity. Qed.

(** The updaters that mark an item and that record a failure do not
    throw; the one that records a result throws only for a null body. *)
Lemma update_matching_total imageFile change :
  (forall img, exists img', change img = inr img') ->
  total (update_matching imageFile change).
Proof.
  intros Hchange prev. apply map_items_total. intros img _.
  destruct (String.eqb (id img) (id imageFile)); [apply Hchange | eauto].
Qed.

Lemma processing_total imageFile :
  total (update_matching imageFile processing_of).
Proof. apply update_matching_total. intros img. eexists. reflexivity. Qed.

Lemma error_total imageFile e :
  total (update_matching imageFile (error_of e)).
Proof. apply update_matching_total. intros img. eexists. reflexivity. Qed.

Lemma completed_total imageFile result :
  result <> JNull -> total (update_matching imageFile (completed_of result)).
Proof.
  intros Hresult. apply update_matching_total. intros img.
  destruct result; try congruence; eexists; reflexivity.
Qed.

(** *** [convertImage] *)

(** The handler is: mark the item, send the request, and go on as
    [settled] says. *)
Lemma convertImage_shape (imageFile : ImageFile) :
  exists k,
    convertImage imageFile
    = SetImages (update_matching imageFile processing_of)
        (Fetch "/api/convert" "POST" [("image", EntryFile (file imageFile))] k)
    /\ forall o, k o = settled imageFile o.
Proof.
  eexists. split; [reflexivity |].
  intros [e | [[] st [e | errorText] [e' | result]]]; reflexivity.
Qed.

Ltac settle_cases Hk :=
  intros o; rewrite Hk; unfold settled;
  destruct o as [? | [[] ? [? | ?] [? | ?]]]; simpl.

Lemma convertImage_NeverThrows imageFile : NeverThrows (convertImage imageFile).
Proof.
  destruct (convertImage_shape imageFile) as (k & -> & Hk); simpl.
  settle_cases Hk; exact I.
Qed.

Lemma convertImage_NoFlag imageFile : NoFlag (convertImage imageFile).
Proof.
  destruct (convertImage_shape imageFile) as (k & -> & Hk); simpl.
  settle_cases Hk; exact I.
Qed.

Lemma convertImage_AllUpdates P imageFile :
  (forall change, P (update_matching imageFile change)) ->
  AllUpdates P (convertImage imageFile).
Proof.
  intros HP.
  destruct (convertImage_shape imageFile) as (k & -> & Hk); simpl.
  split; [apply HP |]. settle_cases Hk; (split; [apply HP | exact I]).
Qed.

Lemma convertImage_keeps_empty imageFile :
  AllUpdates keeps_empty (convertImage imageFile).
Proof.
  apply convertImage_AllUpdates. intros change.
  apply update_matching_keeps_empty.
Qed.

(** *** Traces *)

Lemma requests_app (xs ys : list Ev) :
  requests (xs ++ ys) = requests xs ++ requests ys.
Proof. unfold requests. apply flat_map_app. Qed.

(** A handler that returns, then another: their traces in a row, the
    second numbering its requests after those of the first. *)
Lemma trace_bind (t : Async unit) (k : unit -> Async unit) reply n :
  NeverThrows t ->
  trace (bind t k) reply n
  = trace t reply n
    ++ trace (k tt) reply (n + List.length (requests (trace t reply n))).
Proof.
  revert n.
  induction t as [[] | e | f t IH | b t IH | u t IH | l e t IH
                  | u m body t IH]; intros n Hthrow; simpl in *.
  - now rewrite Nat.add_0_r.
  - contradiction.
  - auto.
  - now rewrite IH.
  - now rewrite IH.
  - auto.
  - rewrite IH by auto. simpl. now rewrite Nat.add_succ_r.
Qed.

Lemma trace_convertImage imageFile reply n :
  trace (convertImage imageFile) reply n
  = [Request n [("image", EntryFile (file imageFile))]; Reply n (reply n)].
Proof.
  destruct (convertImage_shape imageFile) as (k & -> & Hk). simpl.
  rewrite Hk. unfold settled.
  destruct (reply n) as [e | [[] st [e | errorText] [e' | result]]];
    reflexivity.
Qed.

Lemma requests_serial items reply n :
  requests (serial items reply n)
  = map (fun img => [("image", EntryFile (file img))]) items.
Proof.
  revert n. induction items as [| item rest IH]; intros n; simpl;
    [reflexivity | now rewrite IH].
Qed.

Lemma trace_for_each items reply n :
  trace (for_each items convertImage) reply n = serial items reply n.
Proof.
  revert n. induction items as [| item rest IH]; intros n;
    cbn [for_each serial]; [reflexivity |].
  rewrite trace_bind by apply convertImage_NeverThrows.
  rewrite trace_convertImage. cbn [app requests flat_map List.length].
  rewrite IH. now rewrite Nat.add_1_r.
Qed.

Lemma trace_convertAllImages images reply n :
  trace (convertAllImages images) reply n
  = Flag true :: serial (filter is_pending images) reply n ++ [Flag false].
Proof.
  unfold convertAllImages. simpl. f_equal.
  rewrite trace_bind
    by (apply NeverThrows_for_each; intros; apply convertImage_NeverThrows).
  now rewrite trace_for_each.
Qed.

(** A handler awaits each request before it goes on: at no point of its
    trace are two of its requests out. *)
Lemma trace_one_at_a_time (t : Async unit) reply n k :
  outstanding (firstn k (trace t reply n)) 0 <= 1.
Proof.
  revert n k.
  induction t as [a | e | f t IH | b t IH | u t IH | l e t IH
                  | u m body t IH]; intros n k; simpl.
  - destruct k; simpl; lia.
  - destruct k as [| [| k]]; simpl; lia.
  - apply IH.
  - destruct k; simpl; [lia | apply IH].
  - destruct k; simpl; [lia | apply IH].
  - apply IH.
  - destruct k as [| [| k]]; simpl; [lia | lia | apply IH].
Qed.

(** *** The invariant of the page *)

(** A handler that leaves the flag alone keeps the invariant. *)
Lemma exec_single_Inv (t : Async unit) (w : World) :
  NoFlag t -> AllUpdates keeps_empty t -> Inv w -> Inv (exec Single t w).
Proof.
  revert w.
  induction t as [a | e | f t IH | b t IH | u t IH | l e t IH
                  | u m body t IH]; intros w Hflag Hupd Hinv; simpl in *.
  - exact Hinv.
  - exact Hinv.
  - destruct (f (images w)); apply IH; solve [exact Hflag | tauto | exact Hinv].
  - contradiction.
  - apply IH; [exact Hflag | exact Hupd | exact Hinv].
  - apply IH; [exact Hflag | exact Hupd | exact Hinv].
  - destruct Hinv as [Hall Hcount]. split; simpl.
    + apply Forall_app. split; [exact Hall |].
      constructor; [| constructor]. split; simpl; auto.
    + unfold batch_requests in *. simpl.
      rewrite filter_app, length_app. simpl. lia.
Qed.

(** The rest of a batch, run while the flag is set and no other request
    of a batch is out, keeps the invariant. *)
Lemma exec_batch_Inv (t : Async unit) (w : World) :
  BatchTail t -> AllUpdates keeps_empty t ->
  Forall request_ok (inflight w) -> batch_requests w = [] ->
  isProcessing w = true ->
  Inv (exec Batch t w).
Proof.
  revert w.
  induction t as [a | e | f t IH | b t IH | u t IH | l e t IH
                  | u m body t IH]; intros w Htail Hupd Hall Hnone Hset;
    simpl in *.
  - contradiction.
  - contradiction.
  - destruct (f (images w)); apply IH;
      solve [exact Htail | tauto | exact Hall | exact Hnone | exact Hset].
  - destruct Htail as [-> ->]. simpl. split; simpl; [exact Hall |].
    unfold batch_requests in *. simpl. now rewrite Hnone.
  - apply IH; auto.
  - apply IH; auto.
  - split; simpl.
    + apply Forall_app. split; [exact Hall |].
      constructor; [| constructor]. split; simpl; auto.
    + unfold batch_requests in *. simpl.
      rewrite filter_app, Hnone, Hset. reflexivity.
Qed.

Lemma remove_nth_split {X} (xs : list X) (i : nat) (x : X) :
  nth_error xs i = Some x ->
  exists before after,
    xs = before ++ x :: after /\ remove_nth i xs = before ++ after.
Proof.
  revert i. induction xs as [| y rest IH]; intros [| i] Hnth; simpl in *;
    try discriminate.
  - injection Hnth as ->. exists [], rest. split; reflexivity.
  - destruct (IH i Hnth) as (before & after & -> & Hrest).
    exists (y :: before), after. split; [reflexivity |].
    unfold remove_nth in *. simpl in *. now rewrite Hrest.
Qed.

Lemma batch_tail_of_loop (items : list ImageFile) :
  BatchTail (for_each items convertImage ;; setIsProcessing false).
Proof.
  apply BatchTail_bind.
  - apply NoFlag_for_each. intros; apply convertImage_NoFlag.
  - apply NeverThrows_for_each. intros; apply convertImage_NeverThrows.
  - intros _. simpl. split; reflexivity.
Qed.

Lemma loop_keeps_empty (items : list ImageFile) :
  AllUpdates keeps_empty (for_each items convertImage ;; setIsProcessing false).
Proof.
  apply AllUpdates_bind.
  - apply AllUpdates_for_each. intros; apply convertImage_keeps_empty.
  - intros _. exact I.
Qed.

Lemma clearImages_NoFlag (items : list ImageFile) : NoFlag (clearImages items).
Proof.
  unfold clearImages. apply NoFlag_bind.
  - apply NoFlag_for_each. intros; exact I.
  - intros _. exact I.
Qed.

Lemma clearImages_keeps_empty (items : list ImageFile) :
  AllUpdates keeps_empty (clearImages items).
Proof.
  unfold clearImages. apply AllUpdates_bind.
  - apply AllUpdates_for_each. intros; exact I.
  - intros _. split; [reflexivity | exact I].
Qed.

Lemma step_Inv (w : World) (a : Action) : Inv w -> Inv (step w a).
Proof.
  intros Hinv. destruct a as [accepted | | | i | i o]; unfold step.
  - destruct (crashed w); exact Hinv.
  - destruct (negb (crashed w) && actions_shown w
              && negb (convertAll_disabled w)) eqn:Hon; [| exact Hinv].
    apply andb_true_iff in Hon as [_ Hon].
    apply negb_true_iff in Hon. unfold convertAll_disabled in Hon.
    apply orb_false_iff in Hon as [Hoff _].
    destruct Hinv as [Hall Hcount]. rewrite Hoff in Hcount.
    apply length_zero_iff_nil in Hcount.
    unfold convertAllImages. cbn [bind setIsProcessing exec].
    apply exec_batch_Inv; simpl; auto.
    + apply batch_tail_of_loop.
    + apply loop_keeps_empty.
  - destruct (negb (crashed w) && actions_shown w && negb (clear_disabled w));
      [| exact Hinv].
    apply exec_single_Inv; auto.
    + apply clearImages_NoFlag.
    + apply clearImages_keeps_empty.
  - destruct (crashed w); [exact Hinv |].
    destruct (nth_error (images w) i) as [imageFile |]; [| exact Hinv].
    destruct (convert_disabled imageFile); [exact Hinv |].
    apply exec_single_Inv; auto.
    + apply convertImage_NoFlag.
    + apply convertImage_keeps_empty.
  - destruct (nth_error (inflight w) i) as [r |] eqn:Hnth; [| exact Hinv].
    destruct Hinv as [Hall Hcount].
    destruct (remove_nth_split _ _ Hnth) as (before & after & Hsplit & Hrest).
    assert (Hok : request_ok r).
    { rewrite Forall_forall in Hall. apply Hall.
      rewrite Hsplit. apply in_elt. }
    assert (Hall' : Forall request_ok (remove_nth i (inflight w))).
    { rewrite Hrest. rewrite Hsplit in Hall.
      apply Forall_app in Hall as [Hb Ha]. apply Forall_app.
      split; [exact Hb | now inversion Ha]. }
    unfold batch_requests in Hcount. rewrite Hsplit in Hcount.
    rewrite filter_app, length_app in Hcount. simpl in Hcount.
    destruct Hok as [Hupd Hkind].
    destruct (origin r) eqn:Hr; simpl in Hcount.
    + destruct (isProcessing w) eqn:Hflag; [| lia].
      apply exec_batch_Inv; simpl; auto.
      unfold batch_requests. simpl. rewrite Hrest, filter_app.
      apply length_zero_iff_nil. rewrite length_app. lia.
    + apply exec_single_Inv; auto. split; simpl; [exact Hall' |].
      unfold batch_requests. simpl. rewrite Hrest, filter_app, length_app.
      exact Hcount.
Qed.

Lemma run_from_Inv (w : World) (actions : list Action) :
  Inv w -> Inv (run_from w actions).
Proof.
  revert w. induction actions as [| a rest IH]; intros w Hinv; simpl;
    [exact Hinv |].
  apply IH. now apply step_Inv.
Qed.

Lemma run_Inv (actions : list Action) : Inv (run actions).
Proof.
  apply run_from_Inv. split; [constructor | reflexivity].
Qed.

(** C5.  [convertAllImages], called on a list with N pending items,
    sends exactly N requests, one per pending item in the order of the
    list, each one after the one before has settled, so that two of its
    requests are never out together; it sets [isProcessing] first and
    clears it last, and the page's flag is set whenever a request of a
    batch is out. *)
Theorem C5_convertAllImages_serial (images : list ImageFile)
    (reply : nat -> Outcome) :
  let pendingImages := filter is_pending images in
  let evs := trace (convertAllImages images) reply 0 in
  evs = Flag true :: serial pendingImages reply 0 ++ [Flag false]
  /\ requests evs = map (fun img => [("image", EntryFile (file img))]) pendingImages
  /\ List.length (requests evs) = List.length pendingImages
  /\ (forall k, outstanding (firstn k evs) 0 <= 1)
  /\ (forall history,
        List.length (batch_requests (run history))
        = if isProcessing (run history) then 1 else 0).
Proof.
  intros pendingImages evs.
  assert (Hevs : evs = Flag true :: serial pendingImages reply 0 ++ [Flag false])
    by apply trace_convertAllImages.
  assert (Hreq : requests evs
                 = map (fun img => [("image", EntryFile (file img))]) pendingImages).
  { rewrite Hevs. change (Flag true :: ?l) with ([Flag true] ++ l).
    rewrite !requests_app, requests_serial. simpl. apply app_nil_r. }
  repeat split.
  - exact Hevs.
  - exact Hreq.
  - now rewrite Hreq, length_map.
  - intros k. apply trace_one_at_a_time.
  - intros history. apply run_Inv.
Qed.

(** *** Clearing the list *)

Lemma exec_clearImages (who : Origin) (items : list ImageFile) (w : World) :
  exec who (clearImages items) w
  = mkWorld [] (isProcessing w) (inflight w)
      (log w ++ map (fun img => Revoked (preview img)) items) (crashed w).
Proof.
  unfold clearImages. revert w.
  induction items as [| item rest IH]; intros w; simpl.
  - now rewrite app_nil_r.
  - rewrite IH. simpl. now rewrite <- app_assoc.
Qed.

Lemma exec_keeps_empty (who : Origin) (t : Async unit) (w : World) :
  AllUpdates keeps_empty t -> images w = [] -> images (exec who t w) = [].
Proof.
  revert w.
  induction t as [a | e | f t IH | b t IH | u t IH | l e t IH
                  | u m body t IH]; intros w Hupd Hnil; simpl in *; auto.
  destruct Hupd as [Hf Hupd]. rewrite Hnil, Hf.
  apply IH; [exact Hupd | reflexivity].
Qed.

Lemma step_keeps_empty (w : World) (a : Action) :
  Inv w -> images w = [] -> is_DropFiles a = false ->
  images (step w a) = [].
Proof.
  intros [Hall _] Hnil Hdrop.
  destruct a as [accepted | | | i | i o]; unfold step.
  - discriminate.
  - unfold actions_shown. rewrite Hnil, andb_false_r. exact Hnil.
  - unfold actions_shown. rewrite Hnil, andb_false_r. exact Hnil.
  - rewrite Hnil. destruct (crashed w), i; exact Hnil.
  - destruct (nth_error (inflight w) i) as [r |] eqn:Hnth; [| exact Hnil].
    apply exec_keeps_empty; [| exact Hnil].
    rewrite Forall_forall in Hall.
    apply nth_error_In in Hnth. apply (Hall r Hnth).
Qed.

Lemma run_from_keeps_empty (w : World) (later : list Action) :
  Inv w -> images w = [] ->
  forallb (fun a => negb (is_DropFiles a)) later = true ->
  images (run_from w later) = [].
Proof.
  revert w. induction later as [| a rest IH]; intros w Hinv Hnil Hlater;
    simpl in *; [exact Hnil |].
  apply andb_true_iff in Hlater as [Ha Hrest].
  apply negb_true_iff in Ha.
  apply IH; [now apply step_Inv | now apply step_keeps_empty | exact Hrest].
Qed.

(** A page that is gone lists nothing. *)
Lemma exec_gone_empty (who : Origin) (t : Async unit) (w : World) :
  AllUpdates keeps_empty t ->
  (crashed w = true -> images w = []) ->
  crashed (exec who t w) = true -> images (exec who t w) = [].
Proof.
  revert w.
  induction t as [a | e | f t IH | b t IH | u t IH | l e t IH
                  | u m body t IH]; intros w Hupd Hgone; simpl in *; auto.
  destruct Hupd as [Hf Hupd].
  destruct (f (images w)) as [e | next] eqn:Hnext; apply IH; auto; simpl.
  intros Hc. rewrite (Hgone Hc) in Hnext. congruence.
Qed.

Lemma step_gone_empty (w : World) (a : Action) :
  Inv w -> (crashed w = true -> images w = []) ->
  crashed (step w a) = true -> images (step w a) = [].
Proof.
  intros [Hall _] Hgone.
  destruct a as [accepted | | | i | i o]; unfold step.
  - destruct (crashed w) eqn:Hc; [auto |]. simpl. congruence.
  - destruct (negb (crashed w) && actions_shown w
              && negb (convertAll_disabled w)); [| exact Hgone].
    apply exec_gone_empty; [| exact Hgone].
    unfold convertAllImages. cbn [bind setIsProcessing AllUpdates].
    apply loop_keeps_empty.
  - destruct (negb (crashed w) && actions_shown w && negb (clear_disabled w));
      [| exact Hgone].
    apply exec_gone_empty; [apply clearImages_keeps_empty | exact Hgone].
  - destruct (crashed w) eqn:Hc; [auto |].
    destruct (nth_error (images w) i) as [imageFile |];
      [| intros; congruence].
    destruct (convert_disabled imageFile); [intros; congruence |].
    apply exec_gone_empty; [apply convertImage_keeps_empty |].
    intros; congruence.
  - destruct (nth_error (inflight w) i) as [r |] eqn:Hnth; [| exact Hgone].
    apply exec_gone_empty; [| exact Hgone].
    rewrite Forall_forall in Hall.
    apply nth_error_In in Hnth. apply (Hall r Hnth).
Qed.

Lemma run_gone_empty (actions : list Action) :
  crashed (run actions) = true -> images (run actions) = [].
Proof.
  unfold run.
  assert (H : forall w, Inv w -> (crashed w = true -> images w = []) ->
                        crashed (run_from w actions) = true ->
                        images (run_from w actions) = []).
  { induction actions as [| a rest IH]; intros w Hinv Hgone; simpl;
      [exact Hgone |].
    apply IH; [now apply step_Inv | now apply step_gone_empty]. }
  apply H; [split; [constructor | reflexivity] | reflexivity].
Qed.

(** C6, as the claim states it, fails: while a batch is running the
    "Clear All" button is disabled, and a click on it neither empties the
    list nor revokes a preview URL. *)
Lemma C6_clear_disabled_during_batch :
  let w := run Samples.batch_running in
  isProcessing w = true
  /\ map preview (images (step w ClickClearAll)) = ["blob:photo"]
  /\ log (step w ClickClearAll) = log w
  /\ ~ (forall history, images (step (run history) ClickClearAll) = []).
Proof.
  repeat split.
  intros Hall. specialize (Hall Samples.batch_running). discriminate Hall.
Qed.

(** C6, amended.  Whenever no batch is running (the "Clear All" button
    is disabled while [isProcessing] is set), also while requests of
    single conversions are out, clearing revokes the preview URL of every
    item and empties the list; and whatever the requests that are out
    settle with afterwards, and whatever is clicked, the list stays empty
    until files are dropped again. *)
Theorem C6_clear_when_idle (history later : list Action) :
  isProcessing (run history) = false ->
  forallb (fun a => negb (is_DropFiles a)) later = true ->
  let w := run history in
  let cleared := step w ClickClearAll in
  images cleared = []
  /\ log cleared = log w ++ map (fun img => Revoked (preview img)) (images w)
  /\ inflight cleared = inflight w
  /\ images (run_from cleared later) = [].
Proof.
  intros Hidle Hlater w cleared.
  assert (Hinv : Inv cleared) by (apply step_Inv, run_Inv).
  assert (Hflag : isProcessing w = false) by exact Hidle.
  assert (Hgone : crashed w = true -> images w = []) by apply run_gone_empty.
  clearbody w.
  assert (Hshape :
    images cleared = []
    /\ log cleared = log w ++ map (fun img => Revoked (preview img)) (images w)
    /\ inflight cleared = inflight w).
  { unfold cleared, step, clear_disabled, actions_shown.
    rewrite Hflag, exec_clearImages.
    destruct (crashed w) eqn:Hc; simpl.
    - rewrite (Hgone eq_refl). simpl. rewrite app_nil_r. auto.
    - destruct (images w) as [| item rest] eqn:Himg; simpl.
      + rewrite app_nil_r. auto.
      + auto. }
  destruct Hshape as (Hnil & Hlog & Hout).
  repeat split; auto.
  now apply run_from_keeps_empty.
Qed.

Lemma C6_clear_when_idle_witness :
  inflight (run Samples.single_running) <> []
  /\ images (step (run Samples.single_running) ClickClearAll) = []
  /\ log (step (run Samples.single_running) ClickClearAll)
     = log (run Samples.single_running) ++ [Revoked "blob:photo"]
  /\ images (run_from (step (run Samples.single_running) ClickClearAll)
               [Settle 0 (Samples.converted "data:image/jpeg;base64,UGhvdG8=")])
     = [].
Proof.
  destruct (C6_clear_when_idle Samples.single_running
              [Settle 0 (Samples.converted "data:image/jpeg;base64,UGhvdG8=")]
              eq_refl eq_refl) as (Hnil & Hlog & _ & Hlater).
  split; [intros Hout; discriminate Hout |].
  split; [exact Hnil |]. split; [exact Hlog | exact Hlater].
Defined.

(** *** Converting an item again *)

(** The item's own button is enabled exactly for [pending] and [error]. *)
Lemma convert_enabled_iff (imageFile : ImageFile) :
  convert_disabled imageFile = false
  <-> status imageFile = Pending \/ status imageFile = Error.
Proof.
  unfold convert_disabled. destruct (status imageFile); simpl;
    intuition discriminate.
Qed.

(** A click on the disabled button sends nothing and changes nothing. *)
Lemma click_disabled_convert (w : World) (i : nat) (imageFile : ImageFile) :
  nth_error (images w) i = Some imageFile ->
  status imageFile = Processing \/ status imageFile = Completed ->
  step w (ClickConvert i) = w.
Proof.
  intros Hnth Hst. unfold step. rewrite Hnth.
  unfold convert_disabled. destruct (crashed w); [reflexivity |].
  now destruct Hst as [-> | ->].
Qed.

(** A click on the enabled button marks the item and sends one request. *)
Lemma click_enabled_convert (w : World) (i : nat) (imageFile : ImageFile) :
  crashed w = false ->
  nth_error (images w) i = Some imageFile ->
  status imageFile = Pending \/ status imageFile = Error ->
  let w' := step w (ClickConvert i) in
  update_matching imageFile processing_of (images w) = inr (images w')
  /\ log w' = log w ++ [Requested Single [("image", EntryFile (file imageFile))]]
  /\ List.length (inflight w') = S (List.length (inflight w))
  /\ crashed w' = false.
Proof.
  intros Hc Hnth Hst. apply convert_enabled_iff in Hst.
  unfold step. rewrite Hc, Hnth, Hst.
  destruct (convertImage_shape imageFile) as (k & -> & _). cbn [exec].
  destruct (processing_total imageFile (images w)) as [next ->].
  cbn [exec images log inflight crashed isProcessing].
  split; [reflexivity |]. split; [reflexivity |].
  split; [| exact Hc]. rewrite length_app. simpl. lia.
Qed.

(** C7, on the code: the loop of [convertAllImages] walks the list it
    closed over when it started.  An item that was converted from its
    own button in the meantime is [completed] when the loop reaches it;
    the loop marks it [processing] again, sends a second request for it,
    and the second answer replaces the result fields of the first. *)
Theorem C7_batch_converts_completed_item_again :
  map status (images (run Samples.overlapping)) = [Processing; Completed]
  /\ map previewUrl (images (run Samples.overlapping))
     = [None; Some (JStr "data:image/jpeg;base64,Rmlyc3Q=")]
  /\ map status (images (run Samples.overlapping_next))
     = [Completed; Processing]
  /\ log (run Samples.overlapping_next)
     = log (run Samples.overlapping)
       ++ [Settled Batch [("image", EntryFile Samples.photo)];
           Requested Batch [("image", EntryFile Samples.scan)]]
  /\ map status (images (run Samples.overlapping_end))
     = [Completed; Completed]
  /\ map previewUrl (images (run Samples.overlapping_end))
     = [Some (JStr "data:image/jpeg;base64,UGhvdG8=");
        Some (JStr "data:image/jpeg;base64,U2Vjb25k")].
Proof. repeat split. Qed.

(** *** Failures *)

Lemma error_of_fields (e : Thrown) (img : ImageFile) :
  exists img',
    error_of e img = inr img'
    /\ status img' = Error
    /\ error img' = Some (message_of e)
    /\ id img' = id img.
Proof. eexists. repeat split. Qed.

Lemma update_matching_hits imageFile change prev next k img img' :
  update_matching imageFile change prev = inr next ->
  nth_error prev k = Some img -> id img = id imageFile ->
  change img = inr img' ->
  nth_error next k = Some img'.
Proof.
  intros Hnext Hk Hid Hchange.
  destruct (map_items_nth _ _ _ Hnext Hk) as (img'' & Himg'' & Hnth).
  rewrite Hid, String.eqb_refl in Himg''. congruence.
Qed.

Lemma convertAllImages_NeverThrows (images : list ImageFile) :
  NeverThrows (convertAllImages images).
Proof.
  unfold convertAllImages. cbn [bind setIsProcessing NeverThrows].
  apply NeverThrows_bind.
  - apply NeverThrows_for_each. intros; apply convertImage_NeverThrows.
  - intros _. exact I.
Qed.

(** One item, converted from its own button, refused by the endpoint. *)
Example refused_conversion :
  map (fun img => (status img, error img))
    (images (run (Samples.single_running ++ [Settle 0 Samples.refused])))
  = [(Error,
      Some "Conversion failed: 500 {'error':'Failed to convert image. Please try again.'}")].
Proof. reflexivity. Qed.

(** Two items in a batch, the connection down: both are tried. *)
Example offline_batch :
  map status
    (images (run [DropFiles [Samples.dropped_photo; Samples.dropped_scan];
                  ClickConvertAll;
                  Settle 0 Samples.offline;
                  Settle 0 Samples.offline]))
  = [Error; Error]
  /\ isProcessing
       (run [DropFiles [Samples.dropped_photo; Samples.dropped_scan];
             ClickConvertAll;
             Settle 0 Samples.offline;
             Settle 0 Samples.offline])
     = false.
Proof. split; reflexivity. Qed.

(** C8.  [convertImage] lets nothing escape: when the request fails on
    the network or is answered with a status that is not 2xx, it logs,
    sets the item to [error] with a message, and returns; so the loop of
    [convertAllImages] sends a request for every pending item, whatever
    the requests before it settled with. *)
Theorem C8_failure_does_not_halt_batch (imageFile : ImageFile)
    (images : list ImageFile) (reply : nat -> Outcome) :
  NeverThrows (convertImage imageFile)
  /\ (exists k,
        convertImage imageFile
        = SetImages (update_matching imageFile processing_of)
            (Fetch "/api/convert" "POST" [("image", EntryFile (file imageFile))] k)
        /\ forall o, is_failure o = true ->
             exists e,
               k o = ConsoleError "Conversion error:" e
                       (setImages (update_matching imageFile (error_of e))))
  /\ (forall e prev k img,
        nth_error prev k = Some img -> id img = id imageFile ->
        exists next img',
          update_matching imageFile (error_of e) prev = inr next
          /\ nth_error next k = Some img'
          /\ status img' = Error /\ error img' = Some (message_of e))
  /\ NeverThrows (convertAllImages images)
  /\ requests (trace (convertAllImages images) reply 0)
     = map (fun img => [("image", EntryFile (file img))]) (filter is_pending images).
Proof.
  split; [apply convertImage_NeverThrows |].
  split.
  { destruct (convertImage_shape imageFile) as (k & Hshape & Hk).
    exists k. split; [exact Hshape |]. intros o Hfail. rewrite Hk.
    destruct o as [e | [[] st [e | errorText] js]]; simpl in *;
      try discriminate; eexists; reflexivity. }
  split.
  { intros e prev k img Hk Hid.
    destruct (error_total imageFile e prev) as [next Hnext].
    destruct (error_of_fields e img) as (img' & Himg' & Hstatus & Herror & _).
    exists next, img'. split; [exact Hnext |].
    split; [| split; [exact Hstatus | exact Herror]].
    exact (update_matching_hits _ _ _ _ Hnext Hk Hid Himg'). }
  split; [apply convertAllImages_NeverThrows |].
  rewrite trace_convertAllImages.
  change (Flag true :: ?l) with ([Flag true] ++ l).
  rewrite !requests_app, requests_serial. simpl. apply app_nil_r.
Qed.

Lemma C8_failure_does_not_halt_batch_witness :
  requests (trace (convertAllImages [Samples.photo_item; Samples.scan_item])
              (fun _ => Samples.offline) 0)
  = [[("image", EntryFile Samples.photo)]; [("image", EntryFile Samples.scan)]]
  /\ exists next img',
       update_matching Samples.photo_item (error_of (ErrorObj "Failed to fetch"))
         [Samples.photo_item; Samples.scan_item] = inr next
       /\ nth_error next 0 = Some img'
       /\ status img' = Error /\ error img' = Some "Failed to fetch".
Proof.
  destruct (C8_failure_does_not_halt_batch Samples.photo_item
              [Samples.photo_item; Samples.scan_item]
              (fun _ => Samples.offline))
    as (_ & _ & Hmark & _ & Hreq).
  split; [exact Hreq |].
  exact (Hmark (ErrorObj "Failed to fetch")
           [Samples.photo_item; Samples.scan_item] 0 Samples.photo_item
           eq_refl eq_refl).
Defined.

(** C9.  Every update [convertImage] makes for an item, to [processing],
    to [completed] with the result, or to [error] with the message,
    keeps the length of the list and leaves every entry with another
    [id] as it was.  The updates to [processing] and to [error] are made
    for every list, and the one to [completed] for every list and every
    result but [null], whose properties cannot be read. *)
Theorem C9_updates_touch_matching_item_only (imageFile : ImageFile) :
  AllUpdates (only_touches (id imageFile)) (convertImage imageFile)
  /\ only_touches (id imageFile) (update_matching imageFile processing_of)
  /\ (forall result,
        only_touches (id imageFile)
          (update_matching imageFile (completed_of result)))
  /\ (forall e,
        only_touches (id imageFile) (update_matching imageFile (error_of e)))
  /\ total (update_matching imageFile processing_of)
  /\ (forall result, result <> JNull ->
        total (update_matching imageFile (completed_of result)))
  /\ (forall e, total (update_matching imageFile (error_of e))).
Proof.
  split.
  { apply convertImage_AllUpdates. intros change.
    apply update_matching_only_touches. }
  split; [apply update_matching_only_touches |].
  split; [intros; apply update_matching_only_touches |].
  split; [intros; apply update_matching_only_touches |].
  split; [apply processing_total |].
  split; [intros; now apply completed_total | intros; apply error_total].
Qed.

End ClientFacts.

(** * The endpoint: further properties *)

Module ServerMore.

Import Server Paths Traces.

#[local] Arguments includes : simpl never.
#[local] Arguments base64 : simpl never.
#[local] Arguments outputFilename : simpl never.

Ltac unfold_call :=
  unfold sharp_calls, POST, POST_effects, POST_traced, POST_body,
    try_catch, bind, await, emit, ret, json.

Section WithSharp.

Context {sharp : Sharp}.

Lemma POST_run (request : NextRequest) : Effects request.
Proof.
  destruct request as [[e | fd]].
  - eapply E_unparsed; reflexivity.
  - destruct (FormData_get "image" fd) as [[value | f] |] eqn:Hget.
    + destruct value as [| c rest].
      * eapply (@E_empty_text _ _ fd); try eassumption; try reflexivity;
          unfold_call; simpl; rewrite Hget; reflexivity.
      * eapply (@E_text _ _ fd (String c rest)); try eassumption;
          try reflexivity; try discriminate;
          unfold_call; simpl; rewrite Hget; reflexivity.
    + destruct (includes allowedTypes (type f)) eqn:Hty.
      * apply ServerFacts.includes_allowed in Hty as Hok.
        destruct (metadata (arrayBuffer f)) as [e | md] eqn:Hmd.
        { eapply (@E_metadata _ _ fd f e); try eassumption; try reflexivity;
            unfold_call; simpl; rewrite Hget; simpl; rewrite Hty; simpl;
            rewrite Hmd; reflexivity. }
        destruct (jpeg_toBuffer (arrayBuffer f)) as [e | pv] eqn:Hpv.
        { eapply (@E_jpeg _ _ fd f md e); try eassumption; try reflexivity;
            unfold_call; simpl; rewrite Hget; simpl; rewrite Hty; simpl;
            rewrite Hmd, Hpv; reflexivity. }
        destruct (tiff_cmyk_toBuffer (arrayBuffer f)) as [e | out] eqn:Hout.
        { eapply (@E_tiff _ _ fd f md pv e); try eassumption; try reflexivity;
            unfold_call; simpl; rewrite Hget; simpl; rewrite Hty; simpl;
            rewrite Hmd, Hpv, Hout; reflexivity. }
        eapply (@E_converted _ _ fd f md pv out); try eassumption;
          try reflexivity;
          unfold_call; simpl; rewrite Hget; simpl; rewrite Hty; simpl;
          rewrite Hmd, Hpv, Hout; reflexivity.
      * apply ServerFacts.includes_not_allowed in Hty as Hbad.
        eapply (@E_bad_type _ _ fd f); try eassumption; try reflexivity;
          unfold_call; simpl; rewrite Hget; simpl; rewrite Hty; reflexivity.
    + eapply (@E_no_file _ _ fd); try eassumption; try reflexivity;
        unfold_call; simpl; rewrite Hget; reflexivity.
Qed.

(** X1.  The handler answers 200, 400 or 500 and nothing else; a 200
    carries [success] and no [error]; every other answer is an object
    with the single key [error] and a text. *)
Theorem X1_answers (request : NextRequest) :
  (status (POST request) = 200 \/ status (POST request) = 400
   \/ status (POST request) = 500)
  /\ (status (POST request) = 200 ->
      field "success" (body (POST request)) = Some (JBool true)
      /\ field "error" (body (POST request)) = None)
  /\ (status (POST request) <> 200 ->
      exists msg, body (POST request) = JObj [("error", JStr msg)]).
Proof.
  destruct (ServerFacts.POST_path request)
    as [e _ Hr _ | fd _ _ Hr _ | fd _ _ Hr _ | fd value _ _ _ Hr _
        | fd f _ _ _ Hr _ | fd f _ _ _ _ Hr
        | fd f md pv out _ _ _ _ _ _ Hr];
    rewrite Hr; simpl; (split; [auto |]); split;
    try discriminate; try (intros _; eexists; reflexivity);
    try (intros _; split; reflexivity); congruence.
Qed.

(** X2.  The toolkit is called on the bytes of the uploaded file and on
    nothing else, in the order metadata, preview, TIFF; a call is made
    only when the ones before it succeeded, and none is made for a
    request that fails validation. *)
Theorem X2_pipeline_order (request : NextRequest) :
  sharp_calls request = []
  \/ exists fd f,
       formData request = inr fd /\ FormData_get "image" fd = Some (EntryFile f)
       /\ Spec.allowed (type f)
       /\ ((sharp_calls request = [SharpMetadata (arrayBuffer f)]
            /\ exists e, metadata (arrayBuffer f) = inl e)
           \/ (sharp_calls request
               = [SharpMetadata (arrayBuffer f); SharpJpeg (arrayBuffer f)]
               /\ (exists md, metadata (arrayBuffer f) = inr md)
               /\ exists e, jpeg_toBuffer (arrayBuffer f) = inl e)
           \/ (sharp_calls request
               = [SharpMetadata (arrayBuffer f); SharpJpeg (arrayBuffer f);
                  SharpTiffCmyk (arrayBuffer f)]
               /\ (exists md, metadata (arrayBuffer f) = inr md)
               /\ exists pv, jpeg_toBuffer (arrayBuffer f) = inr pv)).
Proof.
  unfold sharp_calls.
  destruct (POST_run request)
    as [e _ He _ | fd _ _ He _ | fd _ _ He _ | fd value _ _ _ He _
        | fd f _ _ _ He _
        | fd f e Hfd Hget Hty Hmd He _
        | fd f md e Hfd Hget Hty Hmd Hpv He _
        | fd f md pv e Hfd Hget Hty Hmd Hpv Hout He _
        | fd f md pv out Hfd Hget Hty Hmd Hpv Hout He _];
    rewrite He; simpl; auto; right; exists fd, f;
    repeat (split; [assumption |]).
  - left. eauto.
  - right; left. eauto.
  - right; right. eauto.
  - right; right. eauto.
Qed.

(** X3.  A 500 is logged: the handler writes one error line to the
    console, as its last effect, carrying what was thrown by the form
    parser or by the toolkit; an answer that is not a 500 writes none. *)
Theorem X3_failure_is_logged (request : NextRequest) :
  (status (POST request) = 500 ->
   exists e,
     filter is_console_error (POST_effects request)
     = [ConsoleError "Conversion error:" e]
     /\ last (POST_effects request) called = ConsoleError "Conversion error:" e
     /\ (formData request = inl e
         \/ exists fd f,
              formData request = inr fd /\ FormData_get "image" fd = Some (EntryFile f)
              /\ (metadata (arrayBuffer f) = inl e
                  \/ jpeg_toBuffer (arrayBuffer f) = inl e
                  \/ tiff_cmyk_toBuffer (arrayBuffer f) = inl e)))
  /\ (status (POST request) <> 500 ->
      filter is_console_error (POST_effects request) = []).
Proof.
  destruct (POST_run request)
    as [e Hfd He Hs | fd _ _ He Hs | fd _ _ He Hs | fd value _ _ _ He Hs
        | fd f _ _ _ He Hs
        | fd f e Hfd Hget Hty Hmd He Hs
        | fd f md e Hfd Hget Hty Hmd Hpv He Hs
        | fd f md pv e Hfd Hget Hty Hmd Hpv Hout He Hs
        | fd f md pv out Hfd Hget Hty Hmd Hpv Hout He Hs];
    rewrite He, Hs; simpl; split; try discriminate; try congruence;
    try (intros _; reflexivity);
    intros _; exists e; (split; [reflexivity |]); (split; [reflexivity |]).
  - now left.
  - right. exists fd, f. auto.
  - right. exists fd, f. auto.
  - right. exists fd, f. auto.
Qed.

(** X4.  The [width] and [height] of a successful answer are the ones the
    decoder reported; a dimension it did not report is left out of
    [metadata]. *)
Theorem X4_dimensions (request : NextRequest) (fd : FormData) (f : File)
    (md : Metadata) (pv out : Buffer) :
  formData request = inr fd ->
  FormData_get "image" fd = Some (EntryFile f) ->
  Spec.allowed (type f) ->
  metadata (arrayBuffer f) = inr md ->
  jpeg_toBuffer (arrayBuffer f) = inr pv ->
  tiff_cmyk_toBuffer (arrayBuffer f) = inr out ->
  exists m,
    field "metadata" (body (POST request)) = Some m
    /\ field "width" m = option_map JNum (width md)
    /\ field "height" m = option_map JNum (height md).
Proof.
  intros Hfd Hget Hty Hmd Hpv Hout.
  destruct (ServerFacts.POST_path request)
    as [e Hfd' _ _ | fd' Hfd' Hget' _ _ | fd' Hfd' Hget' _ _
        | fd' v' Hfd' Hget' _ _ _ | fd' f' Hfd' Hget' Hty' _ _
        | fd' f' Hfd' Hget' _ Hex _
        | fd' f' md' pv' out' Hfd' Hget' _ Hmd' Hpv' Hout' Hr];
    rewrite Hfd in Hfd'; try discriminate; injection Hfd' as <-;
    rewrite Hget in Hget'; try discriminate; injection Hget' as <-.
  - contradiction.
  - destruct Hex as (e & [He | [He | He]]); congruence.
  - rewrite Hmd in Hmd'; injection Hmd' as <-.
    rewrite Hr; simpl. eexists; split; [reflexivity |].
    destruct (width md), (height md); split; reflexivity.
Qed.

End WithSharp.

Lemma X4_dimensions_witness :
  exists m,
    field "metadata" (body (@POST widthless (Samples.upload Samples.scan)))
    = Some m
    /\ field "width" m = None /\ field "height" m = Some (JNum 7).
Proof.
  exact (@X4_dimensions widthless (Samples.upload Samples.scan)
           [("image", EntryFile Samples.scan)] Samples.scan
           (mkMetadata None (Some 7%N))
           [xff; xd8; xff; xd9] [x49; x49; x2a; x00; x08]
           eq_refl eq_refl (or_intror (or_intror eq_refl))
           eq_refl eq_refl eq_refl).
Defined.

(** *** File names *)

Lemma length_of_append (s t : string) :
  String.length (s ++ t) = String.length s + String.length t.
Proof. induction s as [| c s IH]; simpl; [reflexivity | now rewrite IH]. Qed.

Lemma append_cancel_r (s1 s2 t : string) :
  (s1 ++ t)%string = (s2 ++ t)%string -> s1 = s2.
Proof.
  revert s2. induction s1 as [| c s1 IH]; intros [| d s2] H; simpl in *.
  - reflexivity.
  - apply (f_equal String.length) in H. simpl in H.
    rewrite length_of_append in H. lia.
  - apply (f_equal String.length) in H. simpl in H.
    rewrite length_of_append in H. lia.
  - injection H as -> H. f_equal. now apply IH.
Qed.

Lemma count_char_append (c : ascii) (s t : string) :
  count_char c (s ++ t) = count_char c s + count_char c t.
Proof.
  induction s as [| d s IH]; simpl; [reflexivity |]. rewrite IH. lia.
Qed.

Lemma up_to_first_dot_dotless (s : string) :
  count_char "." (Spec.up_to_first_dot s) = 0.
Proof.
  induction s as [| c rest IH]; simpl; [reflexivity |].
  destruct (Ascii.eqb c ".") eqn:Hc; simpl; [reflexivity |].
  now rewrite Hc.
Qed.

(** X5.  Two uploads are given the same output name exactly when their
    names agree up to the first dot; and an output name has one dot, the
    one of [.tiff]. *)
Theorem X5_output_names (a b : string) :
  (outputFilename a = outputFilename b
   <-> nth_error (split "." a) 0 = nth_error (split "." b) 0)
  /\ count_char "." (outputFilename a) = 1.
Proof.
  rewrite !ServerFacts.outputFilename_spec, !ServerFacts.split_first_piece.
  split; [split |].
  - intros H. f_equal. now apply append_cancel_r in H.
  - intros H. injection H as ->. reflexivity.
  - rewrite count_char_append, up_to_first_dot_dotless. reflexivity.
Qed.

End ServerMore.

(** * The page: further properties *)

Module ClientMore.

Import Client Histories.

#[local] Arguments convertImage : simpl never.

(** *** Entries under updates *)

Lemma evolves_refl (img : ImageFile) : evolves img img.
Proof. split; auto. Qed.





Lemma Forall2_evolves_clean (l1 l2 : list ImageFile) :
  Forall2 evolves l1 l2 -> Forall clean l1 -> Forall clean l2.
Proof.
  induction 1 as [| a b l1 l2 [_ Hback] _ IH]; intros Hclean;
    [constructor |].
  inversion Hclean as [| ? ? Ha Hl1]; subst. constructor; [| auto].
  intros Hpending. specialize (Hback Hpending). subst b. auto.
Qed.

Lemma update_matching_itemwise (x : ImageFile)
    (change : ImageFile -> Result ImageFile) :
  (forall img img', change img = inr img' ->
                    core img' = core img /\ status img' <> Pending) ->
  itemwise (update_matching x change).
Proof.
  intros Hchange prev. unfold update_matching.
  induction prev as [| img rest IH]; intros next Hnext; simpl in Hnext.
  - injection Hnext as <-. constructor.
  - destruct (String.eqb (id img) (id x)).
    + destruct (change img) as [e | img'] eqn:Himg; [discriminate |].
      destruct (map_items _ rest) as [e | rest']; [discriminate |].
      injection Hnext as <-. constructor; [| now apply IH].
      destruct (Hchange _ _ Himg) as [Hcore Hst]. split; [exact Hcore |].
      intros Hpending. contradiction.
    + destruct (map_items _ rest) as [e | rest']; [discriminate |].
      injection Hnext as <-. constructor; [apply evolves_refl | now apply IH].
Qed.

Lemma processing_itemwise x : itemwise (update_matching x processing_of).
Proof.
  apply update_matching_itemwise. intros img img' H. injection H as <-.
  split; [reflexivity | discriminate].
Qed.

Lemma completed_itemwise x result :
  itemwise (update_matching x (completed_of result)).
Proof.
  apply update_matching_itemwise. intros img img' H.
  destruct result; try discriminate H; injection H as <-;
    (split; [reflexivity | discriminate]).
Qed.

Lemma error_itemwise x e : itemwise (update_matching x (error_of e)).
Proof.
  apply update_matching_itemwise. intros img img' H. injection H as <-.
  split; [reflexivity | discriminate].
Qed.

(** *** What every handler keeps *)

Lemma convertImage_itemwise (x : ImageFile) :
  AllUpdates itemwise (convertImage x).
Proof.
  destruct (ClientFacts.convertImage_shape x) as (k & -> & Hk); simpl.
  split; [apply processing_itemwise |].
  intros o. rewrite Hk. unfold settled.
  destruct o as [? | [[] ? [? | ?] [? | ?]]]; simpl;
    (split; [| exact I]);
    first [apply completed_itemwise | apply error_itemwise].
Qed.

Lemma convertImage_fetches (x : ImageFile) :
  AllFetches image_form (convertImage x).
Proof.
  destruct (ClientFacts.convertImage_shape x) as (k & -> & Hk); simpl.
  split; [now exists (file x) |].
  intros o. rewrite Hk. unfold settled.
  destruct o as [? | [[] ? [? | ?] [? | ?]]]; exact I.
Qed.

(** The one updater of [convertImage] that can throw is the one that
    reads the properties of a null body. *)
Lemma convertImage_Tame (strict : bool) (x : ImageFile) :
  Tame strict (convertImage x).
Proof.
  destruct (ClientFacts.convertImage_shape x) as (k & -> & Hk); simpl.
  split; [intros _; apply ClientFacts.processing_total |].
  intros o. rewrite Hk. unfold settled.
  destruct o as [e | [[] st [e | errorText] [e' | result]]]; simpl;
    (split; [intros Hs | exact I]);
    first [apply ClientFacts.error_total
          | apply ClientFacts.completed_total; intros ->; discriminate Hs].
Qed.

Lemma AllFetches_bind Q (t : Async unit) (k : unit -> Async unit) :
  AllFetches Q t -> (forall u, AllFetches Q (k u)) -> AllFetches Q (bind t k).
Proof.
  intros Ht Hk.
  induction t as [a | e | f t IH | b t IH | u t IH | l e t IH
                  | u m body t IH]; simpl in *; auto.
  destruct Ht; auto.
Qed.

Lemma AllFetches_for_each Q {X} (xs : list X) (body : X -> Async unit) :
  (forall x, AllFetches Q (body x)) -> AllFetches Q (for_each xs body).
Proof.
  intros Hbody. induction xs as [| x rest IH]; simpl; [exact I |].
  apply AllFetches_bind; auto.
Qed.

Lemma Tame_bind (t : Async unit) (k : unit -> Async unit) (strict : bool) :
  Tame strict t -> (forall s u, Tame s (k u)) -> Tame strict (bind t k).
Proof.
  intros Ht Hk. revert strict Ht.
  induction t as [a | e | f t IH | b t IH | u t IH | l e t IH
                  | u m body t IH]; intros strict Ht; simpl in *; auto.
  destruct Ht; auto.
Qed.

Lemma Tame_for_each {X} (xs : list X) (body : X -> Async unit) :
  (forall s x, Tame s (body x)) -> forall s, Tame s (for_each xs body).
Proof.
  intros Hbody. induction xs as [| x rest IH]; intros s; simpl; [exact I |].
  apply Tame_bind; auto.
Qed.

Lemma convertAllImages_itemwise (items : list ImageFile) :
  AllUpdates itemwise (convertAllImages items).
Proof.
  unfold convertAllImages. cbn [bind setIsProcessing AllUpdates].
  apply ClientFacts.AllUpdates_bind.
  - apply ClientFacts.AllUpdates_for_each. intros; apply convertImage_itemwise.
  - intros _. exact I.
Qed.

Lemma convertAllImages_fetches (items : list ImageFile) :
  AllFetches image_form (convertAllImages items).
Proof.
  unfold convertAllImages. cbn [bind setIsProcessing AllFetches].
  apply AllFetches_bind.
  - apply AllFetches_for_each. intros; apply convertImage_fetches.
  - intros _. exact I.
Qed.

Lemma convertAllImages_Tame (strict : bool) (items : list ImageFile) :
  Tame strict (convertAllImages items).
Proof.
  unfold convertAllImages. cbn [bind setIsProcessing Tame].
  apply Tame_bind.
  - apply Tame_for_each. intros; apply convertImage_Tame.
  - intros s _. exact I.
Qed.

Lemma exec_Sound (who : Origin) (t : Async unit) (strict : bool) (w : World) :
  AllUpdates itemwise t -> AllFetches image_form t -> Tame strict t ->
  Sound w -> Sound (exec who t w).
Proof.
  revert w.
  induction t as [a | e | f t IH | b t IH | u t IH | l e t IH
                  | u m body t IH]; intros w Hupd Hfetch Htame Hs;
    simpl in *.
  - exact Hs.
  - destruct Hs as [Hout Hlog]. split; simpl; [exact Hout |].
    apply Forall_app. split; [exact Hlog | repeat constructor].
  - destruct Hs as [Hout Hlog].
    destruct (f (images w)); apply IH; try tauto; split; simpl; auto.
    apply Forall_app. split; [exact Hlog | repeat constructor].
  - apply IH; [exact Hupd | exact Hfetch | exact Htame | exact Hs].
  - apply IH; [exact Hupd | exact Hfetch | exact Htame |].
    destruct Hs as [Hout Hlog]. split; simpl; [exact Hout |].
    apply Forall_app. split; [exact Hlog | repeat constructor].
  - apply IH; [exact Hupd | exact Hfetch | exact Htame | exact Hs].
  - destruct Hs as [Hout Hlog]. destruct Hfetch as [Hbody Hfetch].
    split; simpl.
    + apply Forall_app. split; [exact Hout |].
      constructor; [| constructor]. simpl. intros o. repeat split; auto.
    + apply Forall_app. split; [exact Hlog |].
      constructor; [exact Hbody | constructor].
Qed.




Lemma exec_clean (who : Origin) (t : Async unit) (w : World) :
  AllUpdates itemwise t -> Forall clean (images w) ->
  Forall clean (images (exec who t w)).
Proof.
  revert w.
  induction t as [a | e | f t IH | b t IH | u t IH | l e t IH
                  | u m body t IH]; intros w Hupd Hclean; simpl in *; auto.
  destruct Hupd as [Hf Hupd].
  destruct (f (images w)) as [e | next] eqn:Hnext; apply IH; auto; simpl;
    first [eapply Forall2_evolves_clean; [apply (Hf _ _ Hnext) | exact Hclean]
          | constructor].
Qed.

Lemma Sound_settling (w : World) (i : nat) (r : InFlight) :
  Sound w -> nth_error (inflight w) i = Some r ->
  (forall o, AllUpdates itemwise (resume r o)
             /\ AllFetches image_form (resume r o)
             /\ Tame (negb (null_body o)) (resume r o))
  /\ Sound (mkWorld (images w) (isProcessing w) (remove_nth i (inflight w))
              (log w ++ [Settled (origin r) (sent r)]) (crashed w)).
Proof.
  intros [Hout Hlog] Hnth.
  destruct (ClientFacts.remove_nth_split _ _ Hnth)
    as (before & after & Hsplit & Hrest).
  rewrite Hsplit in Hout. apply Forall_app in Hout as [Hb Ha].
  inversion Ha as [| ? ? Hr Ha']; subst.
  split; [exact Hr |]. split; simpl.
  - rewrite Hrest. apply Forall_app. split; assumption.
  - apply Forall_app. split; [exact Hlog | repeat constructor].
Qed.

Lemma step_Sound (w : World) (a : Action) : Sound w -> Sound (step w a).
Proof.
  intros Hs. destruct a as [accepted | | | i | i o]; unfold step.
  - destruct (crashed w); exact Hs.
  - destruct (negb (crashed w) && actions_shown w
              && negb (convertAll_disabled w)); [| exact Hs].
    apply (@exec_Sound Batch _ true); auto using convertAllImages_itemwise,
      convertAllImages_fetches, convertAllImages_Tame.
  - destruct (negb (crashed w) && actions_shown w && negb (clear_disabled w));
      [| exact Hs].
    rewrite ClientFacts.exec_clearImages. destruct Hs as [Hout Hlog].
    split; simpl; [exact Hout |].
    apply Forall_app. split; [exact Hlog |].
    apply Forall_forall. intros ev Hin. apply in_map_iff in Hin as (? & <- & _).
    exact I.
  - destruct (crashed w); [exact Hs |].
    destruct (nth_error (images w) i) as [x |]; [| exact Hs].
    destruct (convert_disabled x); [exact Hs |].
    apply (@exec_Sound Single _ true);
      auto using convertImage_itemwise, convertImage_fetches, convertImage_Tame.
  - destruct (nth_error (inflight w) i) as [r |] eqn:Hnth; [| exact Hs].
    destruct (Sound_settling _ Hs Hnth) as [Hr Hs'].
    apply (@exec_Sound (origin r) _ (negb (null_body o)));
      [apply Hr | apply Hr | apply Hr | exact Hs'].
Qed.

Lemma run_Sound (history : list Action) : Sound (run history).
Proof.
  unfold run, run_from.
  assert (Hgen : forall w, Sound w -> Sound (fold_left step history w)).
  { induction history as [| a rest IH]; intros w Hs; simpl; [exact Hs |].
    apply IH. now apply step_Sound. }
  apply Hgen. split; constructor.
Qed.





(** X9.  In every state the page can reach, an item that is [pending]
    carries no preview, no download data, no file name, no metadata and
    no error message. *)
Theorem X9_pending_items_are_blank (history : list Action) :
  Forall clean (images (run history)).
Proof.
  unfold run, run_from.
  assert (Hgen : forall w, Sound w -> Forall clean (images w) ->
                           Forall clean (images (fold_left step history w))).
  { induction history as [| a rest IH]; intros w Hs Hclean; simpl;
      [exact Hclean |].
    apply IH; [now apply step_Sound |].
    destruct a as [accepted | | | i | i o]; unfold step.
    - destruct (crashed w); [exact Hclean |].
      simpl. apply Forall_app. split; [exact Hclean |].
      apply Forall_forall. intros img Hin.
      apply in_map_iff in Hin as (acc & <- & _). intros _. simpl. auto.
    - destruct (negb (crashed w) && actions_shown w
                && negb (convertAll_disabled w));
        [| exact Hclean].
      apply exec_clean; [apply convertAllImages_itemwise | exact Hclean].
    - destruct (negb (crashed w) && actions_shown w
                && negb (clear_disabled w)); [| exact Hclean].
      rewrite ClientFacts.exec_clearImages. constructor.
    - destruct (crashed w); [exact Hclean |].
      destruct (nth_error (images w) i) as [x |]; [| exact Hclean].
      destruct (convert_disabled x); [exact Hclean |].
      apply exec_clean; [apply convertImage_itemwise | exact Hclean].
    - destruct (nth_error (inflight w) i) as [r |] eqn:Hnth; [| exact Hclean].
      destruct (Sound_settling _ Hs Hnth) as [Hr _].
      apply exec_clean; [apply Hr | exact Hclean]. }
  apply Hgen; [split; constructor | constructor].
Qed.

(** X10.  Every request the page sends, in every state it can reach,
    carries one form field, [image], holding a file; the endpoint never
    answers such a request with "No file provided". *)
Theorem X10_requests_carry_the_image (history : list Action) (who : Origin)
    (sent : FormData) :
  In (Requested who sent) (log (run history)) ->
  exists f,
    sent = [("image", EntryFile f)]
    /\ FormData_get "image" sent = Some (EntryFile f)
    /\ forall sharp : Server.Sharp,
         Server.body (@Server.POST sharp (Server.mkRequest (inr sent)))
         <> JObj [("error", JStr "No file provided")].
Proof.
  intros Hin. destruct (run_Sound history) as [_ Hlog].
  rewrite Forall_forall in Hlog. specialize (Hlog _ Hin).
  destruct Hlog as [f ->]. exists f. split; [reflexivity |].
  split; [reflexivity |]. intros sharp.
  destruct (@ServerFacts.POST_path sharp
              (Server.mkRequest (inr [("image", EntryFile f)])))
    as [e Hfd _ _ | fd Hfd Hget _ _ | fd Hfd Hget _ _ | fd value _ _ _ Hr _
        | fd f' _ _ _ Hr _ | fd f' _ _ _ _ Hr
        | fd f' md pv out _ _ _ _ _ _ Hr].
  - discriminate Hfd.
  - simpl in Hfd. injection Hfd as <-. discriminate Hget.
  - simpl in Hfd. injection Hfd as <-. discriminate Hget.
  - intros Heq.
    pose proof (eq_trans (eq_sym Heq) (f_equal Server.body Hr)) as Habs.
    discriminate Habs.
  - intros Heq.
    pose proof (eq_trans (eq_sym Heq) (f_equal Server.body Hr)) as Habs.
    discriminate Habs.
  - intros Heq.
    pose proof (eq_trans (eq_sym Heq) (f_equal Server.body Hr)) as Habs.
    discriminate Habs.
  - intros Heq.
    pose proof (eq_trans (eq_sym Heq) (f_equal Server.body Hr)) as Habs.
    discriminate Habs.
Qed.

Lemma X10_requests_carry_the_image_witness :
  exists f,
    [("image", EntryFile Samples.scan)] = [("image", EntryFile f)]
    /\ FormData_get "image" [("image", EntryFile Samples.scan)]
       = Some (EntryFile f)
    /\ forall sharp : Server.Sharp,
         Server.body (@Server.POST sharp
                        (Server.mkRequest (inr [("image", EntryFile Samples.scan)])))
         <> JObj [("error", JStr "No file provided")].
Proof.
  apply (X10_requests_carry_the_image Samples.overlapping_next Batch).
  vm_compute. auto 10.
Defined.

(** *** One conversion, from the click to the answer *)















(** The same click, answered with a null body. *)
Example null_answer :
  let w := run (Samples.single_running ++ [Settle 0 Samples.nulled]) in
  crashed w = true /\ images w = []
  /\ log w
     = [Requested Single [("image", EntryFile Samples.photo)];
        Settled Single [("image", EntryFile Samples.photo)];
        RenderFailed
          (ErrorObj "Cannot read properties of null (reading 'previewUrl')")]
  /\ step w (DropFiles [Samples.dropped_scan]) = w.
Proof. repeat split. Qed.

(** *** A whole batch *)
















(** A batch of two whose first answer is a null body: the second request
    is still sent and the flag is cleared, on a page that is gone. *)
Example null_answer_in_batch :
  let w := settle_in_turn
             (step (run [DropFiles [Samples.dropped_photo;
                                    Samples.dropped_scan]])
                ClickConvertAll)
             [Samples.nulled;
              Samples.converted "data:image/jpeg;base64,U2Nhbg=="] in
  crashed w = true /\ images w = [] /\ isProcessing w = false
  /\ inflight w = []
  /\ filter (fun ev => match ev with Requested _ _ => true | _ => false end)
       (log w)
     = [Requested Batch [("image", EntryFile Samples.photo)];
        Requested Batch [("image", EntryFile Samples.scan)]].
Proof. repeat split. Qed.

End ClientMore.

(** * Saving a converted file: proofs *)

Module DownloadFacts.

Import Client Download.

(** *** The digits of the alphabet *)

Lemma digits_ok :
  forallb digit_ok (map N.of_nat (seq 0 64)) = true.
Proof. vm_compute. reflexivity. Qed.

Lemma digit_facts (n : N) :
  (n < 64)%N ->
  base64_value (base64_digit n) = Some n
  /\ base64_digit n <> "="%char
  /\ base64_digit n <> ","%char
  /\ is_whitespace (base64_digit n) = false.
Proof.
  intros Hn.
  assert (Hin : In n (map N.of_nat (seq 0 64))).
  { apply in_map_iff. exists (N.to_nat n). split; [apply N2Nat.id |].
    apply in_seq. lia. }
  pose proof digits_ok as Hall. rewrite forallb_forall in Hall.
  specialize (Hall n Hin). unfold digit_ok in Hall.
  apply andb_true_iff in Hall as [Hall Hws].
  apply andb_true_iff in Hall as [Hall Hcomma].
  apply andb_true_iff in Hall as [Hval Hpad].
  apply negb_true_iff in Hws, Hcomma, Hpad.
  apply Ascii.eqb_neq in Hcomma, Hpad.
  repeat split; auto.
  destruct (base64_value (base64_digit n)) as [m |]; [| discriminate].
  apply N.eqb_eq in Hval. now subst.
Qed.

Lemma land_63 (x : N) : N.land x 63 = (x mod 64)%N.
Proof. change 63%N with (N.ones 6). now rewrite N.land_ones. Qed.

Lemma land_63_bound (x : N) : (N.land x 63 < 64)%N.
Proof. rewrite land_63. apply N.mod_upper_bound. discriminate. Qed.

(** *** Buffers, three bytes at a time *)

Lemma buffer_ind3 (P : Buffer -> Prop) :
  P [] -> (forall a, P [a]) -> (forall a b, P [a; b]) ->
  (forall a b c rest, P rest -> P (a :: b :: c :: rest)) ->
  forall bs, P bs.
Proof.
  intros H0 H1 H2 H3.
  assert (Hgen : forall n bs, List.length bs <= n -> P bs).
  { induction n as [| n IH]; intros bs Hlen.
    - destruct bs; [exact H0 | simpl in Hlen; lia].
    - destruct bs as [| a [| b [| c rest]]]; auto.
      apply H3, IH. simpl in Hlen. lia. }
  intros bs. now apply (Hgen (List.length bs)).
Qed.

Lemma base64_chars (bs : Buffer) :
  list_ascii_of_string (base64 bs) = map base64_digit (sextets bs) ++ padding bs.
Proof.
  induction bs as [| a | a b | a b c rest IH] using buffer_ind3;
    try reflexivity.
  cbn [base64 sextets padding map app list_ascii_of_string].
  rewrite IH. reflexivity.
Qed.

Lemma sextets_bound (bs : Buffer) : Forall (fun v => (v < 64)%N) (sextets bs).
Proof.
  induction bs as [| a | a b | a b c rest IH] using buffer_ind3;
    cbn [sextets]; repeat constructor; auto using land_63_bound.
Qed.

Lemma sextets_length (bs : Buffer) :
  List.length (sextets bs) mod 4 <> 1
  /\ (List.length (sextets bs) + List.length (padding bs)) mod 4 = 0.
Proof.
  induction bs as [| a | a b | a b c rest IH] using buffer_ind3;
    try (split; [discriminate | reflexivity]).
  cbn [sextets padding List.length].
  replace (S (S (S (S (List.length (sextets rest))))))
    with (List.length (sextets rest) + 1 * 4) by lia.
  replace (List.length (sextets rest) + 1 * 4 + List.length (padding rest))
    with (List.length (sextets rest) + List.length (padding rest) + 1 * 4)
    by lia.
  now rewrite !Nat.Div0.mod_add.
Qed.

Lemma padding_cases (bs : Buffer) :
  padding bs = [] \/ padding bs = ["="%char]
  \/ padding bs = ["="%char; "="%char].
Proof.
  induction bs as [| a | a b | a b c rest IH] using buffer_ind3; simpl; auto.
Qed.

Lemma values_digits (vs : list N) :
  Forall (fun v => (v < 64)%N) vs -> values (map base64_digit vs) = Some vs.
Proof.
  induction 1 as [| v vs Hv _ IH]; simpl; [reflexivity |].
  destruct (digit_facts Hv) as (-> & _). now rewrite IH.
Qed.

Lemma to_N_256 (b : byte) : (Byte.to_N b < 256)%N.
Proof. pose proof (Byte.to_N_bounded b). lia. Qed.

Lemma group_of_three (a b c : N) :
  (a < 256)%N -> (b < 256)%N -> (c < 256)%N ->
  let w := (a * 65536 + b * 256 + c)%N in
  let v := (((N.land (N.shiftr w 18) 63 * 64 + N.land (N.shiftr w 12) 63) * 64
             + N.land (N.shiftr w 6) 63) * 64
            + N.land (N.shiftr w 0) 63)%N in
  (v / 65536 = a /\ (v / 256) mod 256 = b /\ v mod 256 = c)%N.
Proof.
  intros Ha Hb Hc w v. subst v.
  rewrite !land_63, !N.shiftr_div_pow2.
  change (2 ^ 18)%N with 262144%N. change (2 ^ 12)%N with 4096%N.
  change (2 ^ 6)%N with 64%N. change (2 ^ 0)%N with 1%N. subst w.
  repeat split; zify; Z.to_euclidean_division_equations; lia.
Qed.

Lemma group_of_two (a b : N) :
  (a < 256)%N -> (b < 256)%N ->
  let w := (a * 65536 + b * 256 + 0)%N in
  let v := ((((N.land (N.shiftr w 18) 63 * 64 + N.land (N.shiftr w 12) 63) * 64
              + N.land (N.shiftr w 6) 63)) / 4)%N in
  (v / 256 = a /\ v mod 256 = b)%N.
Proof.
  intros Ha Hb w v. subst v.
  rewrite !land_63, !N.shiftr_div_pow2.
  change (2 ^ 18)%N with 262144%N. change (2 ^ 12)%N with 4096%N.
  change (2 ^ 6)%N with 64%N. subst w.
  repeat split; zify; Z.to_euclidean_division_equations; lia.
Qed.

Lemma group_of_one (a : N) :
  (a < 256)%N ->
  let w := (a * 65536 + 0 * 256 + 0)%N in
  ((N.land (N.shiftr w 18) 63 * 64 + N.land (N.shiftr w 12) 63) / 16 = a)%N.
Proof.
  intros Ha w.
  rewrite !land_63, !N.shiftr_div_pow2.
  change (2 ^ 18)%N with 262144%N. change (2 ^ 12)%N with 4096%N. subst w.
  zify; Z.to_euclidean_division_equations; lia.
Qed.

(** The decoder undoes the encoder, digit for digit. *)
Lemma decode_sextets (bs : Buffer) :
  decode_values (sextets bs) = map Byte.to_N bs.
Proof.
  induction bs as [| a | a b | a b c rest IH] using buffer_ind3.
  - reflexivity.
  - cbn [sextets decode_values map]. unfold word24.
    change (Byte.to_N x00) with 0%N.
    now rewrite (group_of_one (to_N_256 a)).
  - cbn [sextets decode_values map]. unfold word24.
    change (Byte.to_N x00) with 0%N.
    destruct (group_of_two (to_N_256 a) (to_N_256 b)) as (-> & ->).
    reflexivity.
  - cbn [sextets decode_values map]. unfold word24. rewrite IH.
    destruct (group_of_three (to_N_256 a) (to_N_256 b) (to_N_256 c))
      as (-> & -> & ->).
    reflexivity.
Qed.

(** *** [atob] on the text of a buffer *)

Lemma strip_padding_encoded (digits pad : list ascii) :
  Forall (fun c => c <> "="%char) digits ->
  pad = [] \/ pad = ["="%char] \/ pad = ["="%char; "="%char] ->
  strip_padding (digits ++ pad) = digits.
Proof.
  intros Hdigits Hpad.
  assert (Hrev : Forall (fun c => c <> "="%char) (rev digits)).
  { apply Forall_forall. intros c Hc. apply in_rev in Hc.
    rewrite Forall_forall in Hdigits. auto. }
  unfold strip_padding.
  destruct Hpad as [-> | [-> | ->]]; rewrite rev_app_distr; simpl.
  - rewrite app_nil_r.
    destruct (rev digits) as [| c r] eqn:Hr; [reflexivity |].
    inversion Hrev as [| ? ? Hc _]; subst.
    apply Ascii.eqb_neq in Hc. now rewrite Hc.
  - destruct (rev digits) as [| c r] eqn:Hr.
    + apply (f_equal (@rev ascii)) in Hr. rewrite rev_involutive in Hr.
      now subst.
    + inversion Hrev as [| ? ? Hc _]; subst.
      apply Ascii.eqb_neq in Hc. rewrite Hc, <- Hr. apply rev_involutive.
  - apply rev_involutive.
Qed.

Lemma filter_all {X} (p : X -> bool) (l : list X) :
  Forall (fun x => p x = true) l -> filter p l = l.
Proof.
  induction 1 as [| x l Hx _ IH]; simpl; [reflexivity |].
  now rewrite Hx, IH.
Qed.

Lemma digits_of_sextets (bs : Buffer) :
  Forall (fun c => c <> "="%char /\ c <> ","%char /\ is_whitespace c = false)
    (map base64_digit (sextets bs)).
Proof.
  apply Forall_forall. intros c Hc.
  apply in_map_iff in Hc as (v & <- & Hv).
  pose proof (sextets_bound bs) as Hb. rewrite Forall_forall in Hb.
  destruct (digit_facts (Hb v Hv)) as (_ & H1 & H2 & H3). auto.
Qed.

Lemma padding_chars (bs : Buffer) :
  Forall (fun c => c = "="%char) (padding bs).
Proof.
  destruct (padding_cases bs) as [-> | [-> | ->]]; repeat constructor.
Qed.

(** Decoding the base64 text of a buffer gives back its bytes, one
    character each. *)
Lemma atob_base64 (bs : Buffer) :
  atob (base64 bs)
  = inr (string_of_list_ascii (map ascii_of_N (map Byte.to_N bs))).
Proof.
  unfold atob. rewrite base64_chars.
  rewrite filter_all.
  2:{ apply Forall_app. split.
      - eapply Forall_impl; [| apply digits_of_sextets].
        intros c (_ & _ & ->). reflexivity.
      - eapply Forall_impl; [| apply padding_chars]. now intros c ->. }
  destruct (sextets_length bs) as [Hone Hzero].
  rewrite length_app, length_map, Hzero. cbn [Nat.eqb].
  rewrite strip_padding_encoded.
  2:{ eapply Forall_impl; [| apply digits_of_sextets]. now intros c (? & _). }
  2:{ apply padding_cases. }
  rewrite length_map.
  destruct (Nat.eqb_spec (List.length (sextets bs) mod 4) 1) as [Heq | _];
    [contradiction |].
  rewrite values_digits by apply sextets_bound.
  now rewrite decode_sextets.
Qed.

Lemma uint8_of_byte (b : byte) : uint8 (Byte.to_N b) = b.
Proof.
  unfold uint8. rewrite N.mod_small by apply to_N_256.
  now rewrite Byte.of_to_N.
Qed.

Lemma bytes_of_characters (bs : Buffer) :
  map uint8
    (map N_of_ascii
       (list_ascii_of_string
          (string_of_list_ascii (map ascii_of_N (map Byte.to_N bs)))))
  = bs.
Proof.
  rewrite list_ascii_of_string_of_list_ascii, !map_map.
  rewrite <- (map_id bs) at 2. apply map_ext. intros b.
  rewrite N_ascii_embedding by apply to_N_256. apply uint8_of_byte.
Qed.

(** *** The data URI *)

Lemma split_without (sep : ascii) (s : string) :
  ~ In sep (list_ascii_of_string s) -> split sep s = [s].
Proof.
  induction s as [| c rest IH]; intros Hnot; simpl in *; [reflexivity |].
  destruct (Ascii.eqb_spec c sep) as [-> | _]; [tauto |].
  rewrite IH by tauto. reflexivity.
Qed.

Lemma base64_has_no_comma (bs : Buffer) :
  ~ In ","%char (list_ascii_of_string (base64 bs)).
Proof.
  rewrite base64_chars. intros Hin. apply in_app_or in Hin as [Hin | Hin].
  - pose proof (digits_of_sextets bs) as Hd. rewrite Forall_forall in Hd.
    destruct (Hd _ Hin) as (_ & Hc & _). congruence.
  - pose proof (padding_chars bs) as Hp. rewrite Forall_forall in Hp.
    specialize (Hp _ Hin). discriminate.
Qed.

Lemma payload_of_data_uri (payload : string) :
  ~ In ","%char (list_ascii_of_string payload) ->
  nth_error (split "," ("data:image/tiff;base64," ++ payload)) 1
  = Some payload.
Proof.
  intros Hnot. simpl. now rewrite split_without.
Qed.

Lemma outputFilename_truthy (fileName : string) :
  truthy (Some (JStr (Server.outputFilename fileName))) = true.
Proof.
  rewrite ServerFacts.outputFilename_spec.
  destruct (Spec.up_to_first_dot fileName); reflexivity.
Qed.

(** X11.  What the endpoint sends can be saved: for an accepted upload on
    which the toolkit succeeds, an item completed with the fields of the
    answer is saved by [downloadImage] as a blob of exactly the bytes of
    the TIFF output, typed [image/tiff], under the name
    [<stem>_cmyk.tiff]; the object URL made for it is revoked after the
    click. *)
Theorem X11_download_round_trip {sharp : Server.Sharp}
    (request : Server.NextRequest) (fd : FormData) (f : File)
    (md : Server.Metadata) (pv out : Buffer)
    (img : ImageFile) (url : string) :
  Server.formData request = inr fd ->
  FormData_get "image" fd = Some (EntryFile f) ->
  Spec.allowed (type f) ->
  Server.metadata (arrayBuffer f) = inr md ->
  Server.jpeg_toBuffer (arrayBuffer f) = inr pv ->
  Server.tiff_cmyk_toBuffer (arrayBuffer f) = inr out ->
  exists item,
    completed_of (Server.body (Server.POST request)) img = inr item
    /\ downloadImage url item
       = [BlobURL out "image/tiff";
          AppendAnchor url
            (JStr (Spec.up_to_first_dot (name f) ++ "_cmyk.tiff"));
          ClickAnchor; RevokeURL url; RemoveAnchor].
Proof.
  intros Hfd Hget Hty Hmd Hpv Hout.
  destruct (ServerFacts.POST_path request)
    as [e Hfd' _ _ | fd' Hfd' Hget' _ _ | fd' Hfd' Hget' _ _
        | fd' v' Hfd' Hget' _ _ _ | fd' f' Hfd' Hget' Hty' _ _
        | fd' f' Hfd' Hget' _ Hex _
        | fd' f' md' pv' out' Hfd' Hget' _ Hmd' Hpv' Hout' Hr];
    rewrite Hfd in Hfd'; try discriminate; injection Hfd' as <-;
    rewrite Hget in Hget'; try discriminate; injection Hget' as <-.
  - contradiction.
  - destruct Hex as (e & [He | [He | He]]); congruence.
  - rewrite Hout in Hout'; injection Hout' as <-.
    rewrite Hr. cbn [Server.body completed_of]. eexists.
    split; [reflexivity |].
    unfold downloadImage. cbn [downloadData filename].
    change (field "downloadData" _)
      with (Some (JStr ("data:image/tiff;base64," ++ base64 out))).
    change (field "filename" _)
      with (Some (JStr (Server.outputFilename (name f)))).
    rewrite outputFilename_truthy.
    change (truthy (Some (JStr ("data:image/tiff;base64," ++ base64 out))))
      with true.
    cbn [negb orb].
    rewrite (payload_of_data_uri (base64 out)) by apply base64_has_no_comma.
    cbn [interpolate]. rewrite atob_base64, bytes_of_characters.
    now rewrite ServerFacts.outputFilename_spec.
Qed.

Lemma X11_download_round_trip_witness :
  exists item,
    completed_of
      (Server.body (@Server.POST Samples.working (Samples.upload Samples.photo)))
      Samples.photo_item = inr item
    /\ downloadImage "blob:tiff" item
       = [BlobURL [x49; x49; x2a; x00; x08] "image/tiff";
          AppendAnchor "blob:tiff" (JStr "photo_cmyk.tiff");
          ClickAnchor; RevokeURL "blob:tiff"; RemoveAnchor].
Proof.
  exact (@X11_download_round_trip Samples.working
           (Samples.upload Samples.photo) [("image", EntryFile Samples.photo)]
           Samples.photo (Server.mkMetadata (Some 2%N) (Some 1%N))
           [xff; xd8; xff; xd9] [x49; x49; x2a; x00; x08]
           Samples.photo_item "blob:tiff"
           eq_refl eq_refl (or_introl eq_refl) eq_refl eq_refl eq_refl).
Defined.

(** X12.  [downloadImage] saves once or not at all.  Without download
    data or without a file name it does nothing; otherwise it either
    only logs a failure, or makes one blob typed [image/tiff], clicks one
    link to it and revokes the very URL it made.  Download data with no
    comma in it is never saved: decoding throws and the failure is
    logged. *)
Theorem X12_download_is_safe (url : string) (img : ImageFile) :
  (truthy (downloadData img) = false \/ truthy (filename img) = false ->
   downloadImage url img = [])
  /\ (downloadImage url img = []
      \/ (exists e, downloadImage url img = [DownloadFailed e])
      \/ exists bytes chosen,
           downloadImage url img
           = [BlobURL bytes "image/tiff"; AppendAnchor url chosen;
              ClickAnchor; RevokeURL url; RemoveAnchor])
  /\ (forall data,
        downloadData img = Some (JStr data) -> data <> EmptyString ->
        truthy (filename img) = true ->
        ~ In ","%char (list_ascii_of_string data) ->
        downloadImage url img = [DownloadFailed InvalidCharacterError]).
Proof.
  unfold downloadImage. split; [| split].
  - intros [-> | ->]; [reflexivity |]. now rewrite orb_true_r.
  - destruct (negb (truthy (downloadData img))
              || negb (truthy (filename img))); [now left |].
    right.
    destruct (downloadData img) as [[| | | data | |] |];
      destruct (filename img) as [chosen |]; eauto.
    destruct (atob (interpolate (nth_error (split "," data) 1))); eauto.
  - intros data Hdata Hne Hname Hnot. rewrite Hdata, Hname.
    destruct data as [| c rest]; [congruence |]. cbn [truthy negb orb].
    destruct (filename img) as [chosen |]; [| discriminate Hname].
    rewrite split_without by exact Hnot. reflexivity.
Qed.

Lemma X12_download_is_safe_witness :
  downloadImage "blob:tiff"
    (mkImageFile "k3x9q2m1a" Samples.photo "blob:photo" Completed
       None (Some (JStr "SUkqAAg=")) (Some (JStr "photo_cmyk.tiff")) None None)
  = [DownloadFailed InvalidCharacterError].
Proof.
  refine (proj2 (proj2 (X12_download_is_safe "blob:tiff"
            (mkImageFile "k3x9q2m1a" Samples.photo "blob:photo" Completed
               None (Some (JStr "SUkqAAg=")) (Some (JStr "photo_cmyk.tiff"))
               None None)))
            "SUkqAAg=" eq_refl _ eq_refl _).
  - discriminate.
  - simpl. intuition discriminate.
Defined.

End DownloadFacts.
